(** * AXON agent (axon.py): a shallow embedding and its verified properties

    The development follows the layout of [axon.py]:
    - [Str]   : the Python [str] methods the agent calls
                ([lower], [strip], [in], [join], f-string pieces);
    - [Re]    : the fragment of Python's [re] module the agent's patterns use
                (a backtracking matcher: leftmost match, greedy and lazy
                quantifiers, case-insensitive literals, capture groups);
    - the data model (facts, preferences, log entries, memory, storage);
    - the methods of [AxonAgent], written in a state monad over the agent,
      its files and its two sources of fresh data (clock and uuid);
    - [Json]  : the text that [json.dumps] writes and [json.load] reads,
      and the facts file as text;
    - the theorems.

    Strings are lists of 8-bit characters, the UTF-8 bytes of the Python
    text.  Case mapping and white space are those of Python on the ASCII
    range; a character above 127 has no case and is never white space.  The
    model coincides with Python on ASCII text; on other text it differs
    where Python changes the case of a non-ASCII letter, lets such a letter
    match an ASCII one under [re.IGNORECASE], or strips a Unicode space.

    The files of [MemoryPaths] hold well-formed documents.  A file that
    [json.load] rejects makes every method that reads it raise before it
    changes anything; such stores are outside the model. *)

From Stdlib Require Import Ascii String DecimalString List NArith Arith Bool PrimFloat Lia.
From stdpp Require Import gmap strings list.
Import ListNotations.
Open Scope list_scope.
Set Warnings "-inexact-float,-register-all".

Abbreviation str := (list ascii).
Notation "$ s" := (list_ascii_of_string s%string)
  (at level 1, s at level 0, format "$ s").

(* ===================================================================== *)
(** ** Python [str] methods *)
(* ===================================================================== *)

Module Str.

Definition is_upper (c : ascii) : bool :=
  let n := N_of_ascii c in ((65 <=? n) && (n <=? 90))%N.

Definition lower_char (c : ascii) : ascii :=
  if is_upper c then ascii_of_N (N_of_ascii c + 32) else c.

(** [s.lower()] *)
Definition lower (s : str) : str := map lower_char s.

(** [c.isspace()] on the ASCII range: TAB LF VT FF CR, FS GS RS US, SPACE.
    The same class is what [\s] matches in a [str] pattern. *)
Definition isspace (c : ascii) : bool :=
  let n := N_of_ascii c in
  (((9 <=? n) && (n <=? 13)) || ((28 <=? n) && (n <=? 32)))%N.

Fixpoint lstrip_by (p : ascii -> bool) (s : str) : str :=
  match s with
  | c :: s' => if p c then lstrip_by p s' else s
  | [] => []
  end.

Definition rstrip_by (p : ascii -> bool) (s : str) : str :=
  rev (lstrip_by p (rev s)).

Definition strip_by (p : ascii -> bool) (s : str) : str :=
  rstrip_by p (lstrip_by p s).

(** [s.strip()] *)
Definition strip (s : str) : str := strip_by isspace s.

Definition mem (c : ascii) (chars : str) : bool :=
  existsb (Ascii.eqb c) chars.

(** [s.strip(chars)] *)
Definition strip_chars (chars : str) (s : str) : str :=
  strip_by (fun c => mem c chars) s.

(** [s.startswith(p)] *)
Fixpoint startswith (p s : str) : bool :=
  match p, s with
  | [], _ => true
  | a :: p', c :: s' => Ascii.eqb a c && startswith p' s'
  | _ :: _, [] => false
  end.

(** [needle in hay] *)
Fixpoint contains (needle hay : str) : bool :=
  startswith needle hay ||
  match hay with
  | [] => false
  | _ :: hay' => contains needle hay'
  end.

(** [s.endswith(p)] *)
Definition endswith (p s : str) : bool := startswith (rev p) (rev s).

(** [sep.join(parts)] *)
Fixpoint join (sep : str) (parts : list str) : str :=
  match parts with
  | [] => []
  | [p] => p
  | p :: rest => p ++ sep ++ join sep rest
  end.

(** [str(n)] for a non-negative integer, as an f-string prints it. *)
Definition of_nat (n : nat) : str :=
  list_ascii_of_string (NilEmpty.string_of_uint (Nat.to_uint n)).

(** [any(keyword in text for keyword in keywords)] *)
Definition any_in (keywords : list str) (text : str) : bool :=
  existsb (fun keyword => contains keyword text) keywords.

End Str.

(* ===================================================================== *)
(** ** The fragment of [re] used by the agent *)
(* ===================================================================== *)

Module Re.

(** How a capture group over [.] repeats: [+], [*] or the lazy [+?]. *)
Inductive quant := PlusGreedy | StarGreedy | PlusLazy.

Inductive atom :=
| Lit (text : str)            (* literal text, e.g. [je n'aime pas] *)
| Alt (alts : list str)       (* [(a|b|c)] or [(?:a|b|c)] over literals *)
| Spaces                      (* [\s+] *)
| Dots (q : quant).           (* a capture group over [.] *)

(** A compiled pattern: [anchored] is a leading [^];
    [ignorecase] is [flags=re.IGNORECASE]. *)
Record pattern := mkPattern {
  anchored : bool;
  ignorecase : bool;
  atoms : list atom
}.

(** What the agent reads from a match object: [m.group(i)] for the [Dots]
    groups, in order, and the text after [m.end()]. *)
Record rmatch := mkMatch {
  groups : list str;
  after : str
}.

Definition char_eq (ic : bool) (p c : ascii) : bool :=
  if ic then Ascii.eqb (Str.lower_char p) (Str.lower_char c)
  else Ascii.eqb p c.

(** [.] matches everything but a line feed (no [re.DOTALL]). *)
Definition dot (c : ascii) : bool := negb (Ascii.eqb c "010"%char).

Fixpoint lit (ic : bool) (p s : str) : option str :=
  match p with
  | [] => Some s
  | a :: p' =>
      match s with
      | c :: s' => if char_eq ic a c then lit ic p' s' else None
      | [] => None
      end
  end.

Section Quantifiers.
Context {R : Type} (ok : ascii -> bool) (k : str -> str -> option R).

(** One or more [ok] characters, longest first; [k taken rest] is the
    rest of the pattern. *)
Fixpoint greedy (taken s : str) : option R :=
  match s with
  | c :: s' =>
      if ok c then
        match greedy (taken ++ [c]) s' with
        | Some r => Some r
        | None => k (taken ++ [c]) s'
        end
      else None
  | [] => None
  end.

(** One or more [ok] characters, shortest first. *)
Fixpoint lazy (taken s : str) : option R :=
  match s with
  | c :: s' =>
      if ok c then
        match k (taken ++ [c]) s' with
        | Some r => Some r
        | None => lazy (taken ++ [c]) s'
        end
      else None
  | [] => None
  end.
End Quantifiers.

Fixpoint first_alt {R : Type} (ic : bool) (k : str -> option R)
    (alts : list str) (s : str) : option R :=
  match alts with
  | [] => None
  | a :: alts' =>
      match (match lit ic a s with Some s' => k s' | None => None end) with
      | Some r => Some r
      | None => first_alt ic k alts' s
      end
  end.

(** Match [ats] at the head of [s]; [caps] are the groups closed so far. *)
Fixpoint match_here (ic : bool) (ats : list atom) (caps : list str)
    (s : str) : option rmatch :=
  match ats with
  | [] => Some (mkMatch caps s)
  | Lit p :: ats' =>
      match lit ic p s with
      | Some s' => match_here ic ats' caps s'
      | None => None
      end
  | Alt alts :: ats' =>
      first_alt ic (fun s' => match_here ic ats' caps s') alts s
  | Spaces :: ats' =>
      greedy Str.isspace (fun _ s' => match_here ic ats' caps s') [] s
  | Dots PlusGreedy :: ats' =>
      greedy dot (fun g s' => match_here ic ats' (caps ++ [g]) s') [] s
  | Dots StarGreedy :: ats' =>
      match greedy dot (fun g s' => match_here ic ats' (caps ++ [g]) s') [] s with
      | Some r => Some r
      | None => match_here ic ats' (caps ++ [[]]) s
      end
  | Dots PlusLazy :: ats' =>
      lazy dot (fun g s' => match_here ic ats' (caps ++ [g]) s') [] s
  end.

Fixpoint search_from (ic : bool) (ats : list atom) (s : str) : option rmatch :=
  match match_here ic ats [] s with
  | Some m => Some m
  | None =>
      match s with
      | [] => None
      | _ :: s' => search_from ic ats s'
      end
  end.

(** [re.search(p, s)] / [p.search(s)]: the leftmost match. *)
Definition search (p : pattern) (s : str) : option rmatch :=
  if anchored p then match_here (ignorecase p) (atoms p) [] s
  else search_from (ignorecase p) (atoms p) s.

(** [p.sub("", s)] for an anchored pattern that consumes at least one
    character: only a match at position 0 can be replaced. *)
Definition sub_empty (p : pattern) (s : str) : str :=
  match match_here (ignorecase p) (atoms p) [] s with
  | Some m => after m
  | None => s
  end.

(** [m.group(i)], [i >= 1]. *)
Definition group (m : rmatch) (i : nat) : str := nth (i - 1) (groups m) [].

End Re.

(* ===================================================================== *)
(** ** Data model *)
(* ===================================================================== *)

(** Values that may sit in a fact's open [metadata] dictionary (what
    [json] can hold). *)
Inductive json :=
| JNull
| JBool (b : bool)
| JNumber (x : float)
| JString (s : str)
| JArray (elems : list json)
| JObject (members : list (str * json)).

(** One entry of [memory["facts"]["items"]].  [deleted_at] is the only key
    that a fact may lack: [forget_fact] adds it. *)
Record fact := mkFact {
  fid : str;                       (* "id" *)
  subject : str;
  value : str;
  provenance : str;
  confidence : float;
  added_at : str;
  notes : option str;
  tags : list str;
  deleted : bool;
  deleted_at : option str;
  metadata : list (str * json)
}.

(** One entry of [memory["preferences"][category][item]]. *)
Record pref := mkPref {
  opinion : str;
  pref_added_at : str              (* "added_at" *)
}.

(** One line of [memory/logs.jsonl]. *)
Record log_entry := mkLog {
  timestamp : str;
  prompt : str;
  response : list str;
  actions : list str;
  updates : list str
}.

(** [self.memory]: the items of ["facts"] and the nested ["preferences"]
    dictionary, category -> item -> entry. *)
Record Memory := mkMemory {
  facts : list fact;
  preferences : gmap str (gmap str pref)
}.

(** [MemoryPaths]: each file is modelled by the document it holds.
    [config] is [None] when [config/axiomes.md] does not exist. *)
Record MemoryPaths := mkPaths {
  config : option str;
  facts_file : list fact;
  preferences_file : gmap str (gmap str pref);
  logs : list log_entry
}.

(** The agent together with what its methods read and write besides
    [self]: the files, the clock behind [_now()] and the generator behind
    [uuid.uuid4()].  The [n]-th call of [_now()] returns [clock n]. *)
Record AxonAgent := mkAgent {
  paths : MemoryPaths;
  memory : Memory;
  axioms : str;
  clock : nat -> str;
  ticks : nat;
  uuid4 : nat -> str;
  drawn : nat
}.

(** What the agent reads from one record returned by [search_web];
    [provenance] and [confidence] are read with [.get] and may be absent. *)
Record search_result := mkResult {
  r_subject : str;
  r_value : str;
  r_url : option str;
  r_summary : str;
  r_provenance : option str;
  r_confidence : option float
}.

(** The dictionaries built by the two statement parsers. *)
Record fact_data := mkFactData { fd_subject : str; fd_value : str }.
Record preference := mkPreference {
  category : str; item : str; pr_opinion : str
}.

(* ===================================================================== *)
(** ** State monad over the agent *)
(* ===================================================================== *)

Definition M (A : Type) : Type := AxonAgent -> A * AxonAgent.

Definition ret {A : Type} (a : A) : M A := fun self => (a, self).

Definition bind {A B : Type} (m : M A) (k : A -> M B) : M B :=
  fun self => let (a, self') := m self in k a self'.

Notation "x <~ m ;; k" := (bind m (fun x => k))
  (at level 100, m at next level, right associativity).
Notation "m ;;; k" := (bind m (fun _ => k))
  (at level 100, right associativity).

Definition set_memory (mem : Memory) : M unit := fun self =>
  (tt, mkAgent (paths self) mem (axioms self)
         (clock self) (ticks self) (uuid4 self) (drawn self)).

Definition set_axioms (a : str) : M unit := fun self =>
  (tt, mkAgent (paths self) (memory self) a
         (clock self) (ticks self) (uuid4 self) (drawn self)).

Definition set_paths (p : MemoryPaths) : M unit := fun self =>
  (tt, mkAgent p (memory self) (axioms self)
         (clock self) (ticks self) (uuid4 self) (drawn self)).

Definition get_memory : M Memory := fun self => (memory self, self).
Definition get_paths : M MemoryPaths := fun self => (paths self, self).

(** [datetime.now(timezone.utc).isoformat()] *)
Definition _now : M str := fun self =>
  (clock self (ticks self),
   mkAgent (paths self) (memory self) (axioms self)
     (clock self) (S (ticks self)) (uuid4 self) (drawn self)).

(** [uuid.uuid4().hex] *)
Definition uuid4_hex : M str := fun self =>
  (uuid4 self (drawn self),
   mkAgent (paths self) (memory self) (axioms self)
     (clock self) (ticks self) (uuid4 self) (S (drawn self))).

(* ===================================================================== *)
(** ** File management helpers *)
(* ===================================================================== *)

(** Load the axioms file described by the specification. *)
Definition load_axioms : M unit :=
  p <~ get_paths ;;
  match config p with
  | Some text => set_axioms text
  | None => set_axioms []
  end.

(** Load memory JSON files and keep them in-memory.  The deep copy it
    returns is the memory itself: values are not shared here. *)
Definition load_memory : M Memory :=
  p <~ get_paths ;;
  set_memory (mkMemory (facts_file p) (preferences_file p)) ;;;
  get_memory.

(** Persist the current in-memory state back to disk. *)
Definition save_memory : M unit :=
  mem <~ get_memory ;;
  p <~ get_paths ;;
  set_paths (mkPaths (config p) (facts mem) (preferences mem) (logs p)).

(** Append a JSON line to the logs file. *)
Definition update_logs (entry : log_entry) : M unit :=
  p <~ get_paths ;;
  set_paths (mkPaths (config p) (facts_file p) (preferences_file p)
               (logs p ++ [entry])).

(* ===================================================================== *)
(** ** Memory manipulation *)
(* ===================================================================== *)

(** The local [confidence_map] of [remember_fact]. *)
Definition confidence_map : list (str * float) :=
  [($"user", 0.2%float); ($"web", 0.8%float)].

(** [d.get(key, default)] on a dictionary given by its items. *)
Fixpoint dict_get {V : Type} (d : list (str * V)) (key : str) (default : V) : V :=
  match d with
  | [] => default
  | (k, v) :: d' => if bool_decide (k = key) then v else dict_get d' key default
  end.

(** Store a factual statement with provenance and metadata. *)
Definition remember_fact (subject value provenance : str)
    (confidence : option float) (notes : option str)
    (tags : option (list str)) (metadata : option (list (str * json)))
    : M fact :=
  new_id <~ uuid4_hex ;;
  now <~ _now ;;
  let fact :=
    mkFact new_id (Str.strip subject) (Str.strip value) provenance
      (match confidence with
       | Some c => c
       | None => dict_get confidence_map provenance 0.5%float
       end)
      now notes
      (match tags with Some t => t | None => [] end)
      false None
      (match metadata with Some m => m | None => [] end) in
  mem <~ get_memory ;;
  set_memory (mkMemory (facts mem ++ [fact]) (preferences mem)) ;;;
  ret fact.

(** Store a user preference grouped by category. *)
Definition remember_preference (category item opinion : str) : M pref :=
  now <~ _now ;;
  mem <~ get_memory ;;
  let category_block :=
    match preferences mem !! category with
    | Some block => block
    | None => ∅
    end in
  let entry := mkPref opinion now in
  set_memory (mkMemory (facts mem)
                (<[category := <[item := entry]> category_block]> (preferences mem))) ;;;
  ret entry.

(** The loop of [forget_fact]: the facts already visited are rebuilt in
    place, [count] is the local [deleted]. *)
Fixpoint forget_loop (subject_query : str) (items : list fact) (count : nat)
    : M (list fact * nat) :=
  match items with
  | [] => ret ([], count)
  | f :: rest =>
      if deleted f then
        r <~ forget_loop subject_query rest count ;;
        ret (f :: fst r, snd r)
      else
        let subject_l := Str.lower (subject f) in
        if Str.contains (Str.lower subject_query) subject_l then
          now <~ _now ;;
          let f' := mkFact (fid f) (subject f) (value f) (provenance f)
                      (confidence f) (added_at f) (notes f) (tags f)
                      true (Some now) (metadata f) in
          r <~ forget_loop subject_query rest (count + 1) ;;
          ret (f' :: fst r, snd r)
        else
          r <~ forget_loop subject_query rest count ;;
          ret (f :: fst r, snd r)
  end.

(** Soft-delete facts matching the provided subject query. *)
Definition forget_fact (subject_query : str) : M nat :=
  match Str.strip subject_query with
  | [] => ret 0
  | _ :: _ =>
      mem <~ get_memory ;;
      r <~ forget_loop subject_query (facts mem) 0 ;;
      set_memory (mkMemory (fst r) (preferences mem)) ;;;
      ret (snd r)
  end.

(* ===================================================================== *)
(** ** Parsing helpers *)
(* ===================================================================== *)

(** Python truthiness of a string. *)
Definition nonempty (s : str) : bool :=
  match s with [] => false | _ :: _ => true end.

(** [(?:cherche|google|web)\s+] followed by the group [.*], [re.IGNORECASE] *)
Definition query_pattern : Re.pattern :=
  Re.mkPattern false true
    [Re.Alt [$"cherche"; $"google"; $"web"]; Re.Spaces; Re.Dots Re.StarGreedy].

(** Extract a search query from the prompt. *)
Definition _extract_query (prompt : str) : str :=
  match Re.search query_pattern prompt with
  | Some m => Str.strip (Re.group m 1)
  | None => Str.strip prompt
  end.

(** [^(apprends que|tiens sache que)\s+], [re.IGNORECASE] *)
Definition prefix_pattern : Re.pattern :=
  Re.mkPattern true true
    [Re.Alt [$"apprends que"; $"tiens sache que"]; Re.Spaces].

(** [(.+?)\s+est\s+(.+)], [re.IGNORECASE] *)
Definition est_pattern : Re.pattern :=
  Re.mkPattern false true
    [Re.Dots Re.PlusLazy; Re.Spaces; Re.Lit $"est"; Re.Spaces;
     Re.Dots Re.PlusGreedy].

(** Attempt to parse a fact statement from the user. *)
Definition _parse_fact_statement (prompt : str) : option fact_data :=
  let cleaned := Str.strip (Re.sub_empty prefix_pattern prompt) in
  match Re.search est_pattern cleaned with
  | Some m =>
      let subject := Str.strip (Re.group m 1) in
      let value := Str.strip_chars $" ." (Re.group m 2) in
      Some (mkFactData subject value)
  | None =>
      let stripped := Str.strip cleaned in
      if nonempty stripped then Some (mkFactData stripped stripped)
      else None
  end.

(** Text located after the first occurrence of [keyword]
    ([re.escape(keyword)], [re.IGNORECASE]). *)
Definition _extract_after_keyword (prompt keyword : str) : str :=
  match Re.search (Re.mkPattern false true [Re.Lit keyword]) prompt with
  | None => []
  | Some m => Re.after m
  end.

(** [j'aime\s+(.+)], [re.IGNORECASE] *)
Definition like_pattern : Re.pattern :=
  Re.mkPattern false true [Re.Lit $"j'aime"; Re.Spaces; Re.Dots Re.PlusGreedy].

(** [je n'aime pas\s+(.+)], [re.IGNORECASE] *)
Definition dislike_pattern : Re.pattern :=
  Re.mkPattern false true
    [Re.Lit $"je n'aime pas"; Re.Spaces; Re.Dots Re.PlusGreedy].

(** Extract preference data from the prompt when possible. *)
Definition _parse_preference_statement (prompt : str) : option preference :=
  let lowered := Str.lower prompt in
  if Str.contains $"mon avis" lowered then
    let after := Str.strip_chars $" :" (_extract_after_keyword prompt $"mon avis") in
    if nonempty after then Some (mkPreference $"general" after after)
    else None
  else
    match Re.search like_pattern prompt with
    | Some like_match =>
        let item := Str.strip_chars $" ." (Re.group like_match 1) in
        Some (mkPreference $"likes" item $"like")
    | None =>
        match Re.search dislike_pattern prompt with
        | Some dislike_match =>
            let item := Str.strip_chars $" ." (Re.group dislike_match 1) in
            Some (mkPreference $"dislikes" item $"dislike")
        | None => None
        end
    end.

(** The three question patterns, matched against the lowered prompt
    without flags. *)
Definition question_patterns : list Re.pattern :=
  [Re.mkPattern false false [Re.Lit $"qui est"; Re.Spaces; Re.Dots Re.PlusGreedy];
   Re.mkPattern false false [Re.Lit $"qu'est-ce que"; Re.Spaces; Re.Dots Re.PlusGreedy];
   Re.mkPattern false false [Re.Lit $"quel est"; Re.Spaces; Re.Dots Re.PlusGreedy]].

Fixpoint first_question (patterns : list Re.pattern) (lowered : str)
    : option str :=
  match patterns with
  | [] => None
  | pattern :: rest =>
      match Re.search pattern lowered with
      | Some m => Some (Str.strip (Re.group m 1))
      | None => first_question rest lowered
      end
  end.

(** Extract the subject of a question to query the knowledge base. *)
Definition _extract_question_subject (prompt : str) : option str :=
  let lowered := Str.strip_chars $" ?!." (Str.lower prompt) in
  match first_question question_patterns lowered with
  | Some s => Some s
  | None =>
      let lowered :=
        if Str.endswith $"?" lowered then removelast lowered else lowered in
      if nonempty lowered then Some lowered else None
  end.

(** The loop of [_find_matching_facts]; [matches] is the list being built. *)
Fixpoint find_loop (subject_query_lower : str) (items matches : list fact)
    : list fact :=
  match items with
  | [] => matches
  | f :: rest =>
      if deleted f then find_loop subject_query_lower rest matches
      else
        let subject := subject f in
        let value := value f in
        if Str.contains subject_query_lower (Str.lower subject)
           || Str.contains (Str.lower subject) subject_query_lower
        then find_loop subject_query_lower rest (matches ++ [f])
        else if Str.contains subject_query_lower (Str.lower value)
        then find_loop subject_query_lower rest (matches ++ [f])
        else find_loop subject_query_lower rest matches
  end.

(** Return facts whose subject roughly matches the query. *)
Definition _find_matching_facts (mem : Memory) (subject_query : str)
    : list fact :=
  find_loop (Str.lower subject_query) (facts mem) [].

(* ===================================================================== *)
(** ** Interaction helpers *)
(* ===================================================================== *)

Definition newline : str := ["010"%char].

(** The default, offline [search_web]: one placeholder record. *)
Definition search_web (query : str) : list search_result :=
  let summary :=
    $"Aucune recherche en ligne réelle n'a été effectuée pour '" ++ query ++ $"'." in
  [mkResult ($"web_search:" ++ query) summary None summary
     (Some $"web") (Some 0.5%float)].

Definition json_of_option (o : option str) : json :=
  match o with Some s => JString s | None => JNull end.

(** The [for result in results] loop of the search branch. *)
Fixpoint store_results (query : str) (results : list search_result)
    (updates_performed : list str) : M (list str) :=
  match results with
  | [] => ret updates_performed
  | result :: rest =>
      stored <~ remember_fact (r_subject result) (r_summary result)
                  (match r_provenance result with Some p => p | None => $"web" end)
                  (r_confidence result) None None
                  (Some [($"url", json_of_option (r_url result));
                         ($"query", JString query)]) ;;
      store_results query rest (updates_performed ++ [$"fact:" ++ fid stored])
  end.

(** The [for fact in matches] loop of the answer branch. *)
Definition answer_lines (matches : list fact) : list str :=
  map (fun f =>
         $"Selon " ++ provenance f ++ $": " ++ subject f ++ $" = " ++ value f
           ++ $" [" ++ added_at f ++ $"].")
      matches.

(** The if/elif chain of [respond]: it fills and yields
    [(response_lines, actions, updates_performed)]. *)
Definition dispatch (prompt : str) : M (list str * list str * list str) :=
  let lowered := Str.strip (Str.lower prompt) in
  if Str.any_in [$"cherche"; $"google"; $"web"] lowered then
    let query := _extract_query prompt in
    let results := search_web query in
    updates_performed <~ store_results query results [] ;;
    ret ([$"Résultat de recherche (mock) pour '" ++ query ++ $"'."],
         [$"search_web"], updates_performed)

  else if Str.any_in [$"apprends que"; $"tiens sache que"] lowered then
    match _parse_fact_statement prompt with
    | Some data =>
        stored <~ remember_fact (fd_subject data) (fd_value data) $"user"
                    None None None None ;;
        ret ([$"Je mémorise que " ++ subject stored ++ $" est " ++ value stored
                ++ $" (provenance utilisateur)."],
             [$"remember_fact"], [$"fact:" ++ fid stored])
    | None =>
        ret ([$"Je n'ai pas réussi à comprendre le fait à mémoriser."],
             [$"remember_fact"], [])
    end

  else if Str.any_in [$"mon avis"; $"j'aime"; $"je n'aime pas"] lowered then
    match _parse_preference_statement prompt with
    | Some p =>
        stored <~ remember_preference (category p) (item p) (pr_opinion p) ;;
        ret ([$"Préférence enregistrée pour " ++ item p ++ $" dans "
                ++ category p ++ $"."],
             [$"remember_preference"],
             [$"preference:" ++ category p ++ $":" ++ item p])
    | None =>
        ret ([$"Je n'ai pas compris la préférence à enregistrer."],
             [$"remember_preference"], [])
    end

  else if Str.contains $"oublie" lowered then
    let subject_query := Str.strip (_extract_after_keyword prompt $"oublie") in
    if negb (nonempty subject_query) then
      ret ([$"Précise ce que je dois oublier."], [$"forget_fact"], [])
    else
      count <~ forget_fact subject_query ;;
      if negb (count =? 0) then
        ret ([Str.of_nat count ++ $" fait(s) marqué(s) comme oublié(s) pour '"
                ++ subject_query ++ $"'."],
             [$"forget_fact"], [])
      else
        ret ([$"Aucun fait correspondant à oublier."], [$"forget_fact"], [])

  else
    match _extract_question_subject prompt with
    | Some (c :: q) =>
        mem <~ get_memory ;;
        let matches := _find_matching_facts mem (c :: q) in
        match matches with
        | _ :: _ => ret (answer_lines matches, [$"answer"], [])
        | [] =>
            ret ([$"Je n'ai aucun fait correspondant en mémoire."],
                 [$"answer"], [])
        end
    | _ =>
        ret ([$"Je suis prêt à apprendre ou à répondre selon les instructions."],
             [$"answer"], [])
    end.

(** Process a user prompt according to the AXON specification. *)
Definition respond (prompt : str) : M str :=
  load_axioms ;;;
  load_memory ;;;
  out <~ dispatch prompt ;;
  let '(response_lines, actions, updates_performed) := out in
  save_memory ;;;
  now <~ _now ;;
  update_logs (mkLog now prompt response_lines actions updates_performed) ;;;
  ret (Str.join newline response_lines).

(** Return a deep copy of the current memory state. *)
Definition show_memory : M Memory := get_memory.

(* ===================================================================== *)
(** ** JSON text: what [json.dumps] writes and [json.load] reads *)
(* ===================================================================== *)

(** Python's conversions between a [float] and its decimal text, [repr]
    and [float()], are not part of the repository; the codec takes them as
    a parameter. *)
Record float_text := mkFloatText {
  float_repr : float -> str;
  float_of_str : str -> option float
}.

Module Json.

Definition quote : ascii := "034"%char.
Definition backslash : ascii := "092"%char.

Definition hex_digit (n : N) : ascii :=
  nth (N.to_nat n) $"0123456789abcdef" "0"%char.

(** [ESCAPE_DCT] of [json.encoder], as used with [ensure_ascii=False]:
    quote, backslash and the control characters are escaped, everything
    else is written as it is. *)
Definition escape_char (c : ascii) : str :=
  let n := N_of_ascii c in
  if Ascii.eqb c quote then [backslash; quote]
  else if Ascii.eqb c backslash then [backslash; backslash]
  else if (n =? 8)%N then [backslash; "b"%char]
  else if (n =? 12)%N then [backslash; "f"%char]
  else if (n =? 10)%N then [backslash; "n"%char]
  else if (n =? 13)%N then [backslash; "r"%char]
  else if (n =? 9)%N then [backslash; "t"%char]
  else if (n <? 32)%N then
    [backslash; "u"%char; "0"%char; "0"%char;
     hex_digit (n / 16); hex_digit (n mod 16)]
  else [c].

(** [encode_basestring] *)
Definition encode_basestring (s : str) : str :=
  quote :: concat (map escape_char s) ++ [quote].

(** ["\n" + indent * level] with [indent=2] *)
Definition newline_indent (level : nat) : str :=
  "010"%char :: repeat " "%char (2 * level).

(** The items of a non-empty list or dictionary: the first is written as it
    is, each further one after [","] and a new line. *)
Definition dump_items {A : Type} (dump : A -> str) (level : nat)
    (items : list A) : str :=
  match items with
  | [] => []
  | first :: others =>
      dump first
      ++ concat (map (fun x => ","%char :: newline_indent level ++ dump x) others)
  end.

(** [json.dumps(obj, indent=2, ensure_ascii=False)] at nesting depth
    [level]. *)
Fixpoint dumps_at (ft : float_text) (level : nat) (obj : json) : str :=
  match obj with
  | JNull => $"null"
  | JBool true => $"true"
  | JBool false => $"false"
  | JNumber x => float_repr ft x
  | JString s => encode_basestring s
  | JArray [] => $"[]"
  | JArray elems =>
      "["%char :: newline_indent (S level)
      ++ dump_items (dumps_at ft (S level)) (S level) elems
      ++ newline_indent level ++ ["]"%char]
  | JObject [] => $"{}"
  | JObject members =>
      "{"%char :: newline_indent (S level)
      ++ dump_items
           (fun kv => encode_basestring (fst kv) ++ $": "
                      ++ dumps_at ft (S level) (snd kv))
           (S level) members
      ++ newline_indent level ++ ["}"%char]
  end.

Definition dumps (ft : float_text) (obj : json) : str := dumps_at ft 0 obj.

(** [WHITESPACE] of [json.decoder]: space, TAB, LF, CR. *)
Definition is_ws (c : ascii) : bool :=
  let n := N_of_ascii c in
  ((n =? 32) || (n =? 9) || (n =? 10) || (n =? 13))%N.

Definition skip_ws (s : str) : str := Str.lstrip_by is_ws s.

Definition hex_value (c : ascii) : option N :=
  let n := N_of_ascii c in
  if ((48 <=? n) && (n <=? 57))%N then Some (n - 48)%N
  else if ((97 <=? n) && (n <=? 102))%N then Some (n - 87)%N
  else if ((65 <=? n) && (n <=? 70))%N then Some (n - 55)%N
  else None.

Definition hex4 (a b c d : ascii) : option N :=
  match hex_value a, hex_value b, hex_value c, hex_value d with
  | Some x, Some y, Some z, Some w => Some (((x * 16 + y) * 16 + z) * 16 + w)%N
  | _, _, _, _ => None
  end.

(** The UTF-8 bytes of a code point of the basic plane given by a [\u]
    escape.  Surrogates, which have no UTF-8 form, are outside the model. *)
Definition utf8 (code : N) : option str :=
  if (code <? 128)%N then Some [ascii_of_N code]
  else if (code <? 2048)%N then
    Some [ascii_of_N (192 + code / 64); ascii_of_N (128 + code mod 64)]
  else if ((55296 <=? code) && (code <=? 57343))%N then None
  else
    Some [ascii_of_N (224 + code / 4096);
          ascii_of_N (128 + (code / 64) mod 64);
          ascii_of_N (128 + code mod 64)].

(** [BACKSLASH] of [json.decoder] *)
Definition unescape (e : ascii) : option ascii :=
  if Ascii.eqb e quote then Some quote
  else if Ascii.eqb e backslash then Some backslash
  else if Ascii.eqb e "/"%char then Some "/"%char
  else if Ascii.eqb e "b"%char then Some "008"%char
  else if Ascii.eqb e "f"%char then Some "012"%char
  else if Ascii.eqb e "n"%char then Some "010"%char
  else if Ascii.eqb e "r"%char then Some "013"%char
  else if Ascii.eqb e "t"%char then Some "009"%char
  else None.

Definition prepend (chars : str) (r : option (str * str)) : option (str * str) :=
  match r with
  | Some (text, rest) => Some (chars ++ text, rest)
  | None => None
  end.

(** [scanstring(s, end, strict=True)], called after the opening quote:
    the decoded text and what follows the closing quote. *)
Fixpoint scanstring (s : str) : option (str * str) :=
  match s with
  | [] => None
  | c :: s' =>
      if Ascii.eqb c quote then Some ([], s')
      else if Ascii.eqb c backslash then
        match s' with
        | [] => None
        | e :: s'' =>
            if Ascii.eqb e "u"%char then
              match s'' with
              | h1 :: h2 :: h3 :: h4 :: s3 =>
                  match hex4 h1 h2 h3 h4 with
                  | Some code =>
                      match utf8 code with
                      | Some bytes => prepend bytes (scanstring s3)
                      | None => None
                      end
                  | None => None
                  end
              | _ => None
              end
            else
              match unescape e with
              | Some ch => prepend [ch] (scanstring s'')
              | None => None
              end
        end
      else if (N_of_ascii c <? 32)%N then None
      else prepend [c] (scanstring s')
  end.

Definition is_digit (c : ascii) : bool :=
  let n := N_of_ascii c in ((48 <=? n) && (n <=? 57))%N.

(** The longest run of digits at the head of [s], and the rest. *)
Fixpoint span_digits (s : str) : str * str :=
  match s with
  | c :: s' =>
      if is_digit c then let (ds, r) := span_digits s' in (c :: ds, r)
      else ([], s)
  | [] => ([], [])
  end.

(** The integer part of [NUMBER_RE]: an optional minus sign, then a lone
    zero or a digit from 1 to 9 and further digits. *)
Definition lex_integer (s : str) : option (str * str) :=
  let (sign, s1) :=
    match s with
    | c :: s' => if Ascii.eqb c "-"%char then ([c], s') else ([], s)
    | [] => ([], s)
    end in
  match s1 with
  | c :: s' =>
      if Ascii.eqb c "0"%char then Some (sign ++ [c], s')
      else if is_digit c then
        let (ds, r) := span_digits s' in Some (sign ++ c :: ds, r)
      else None
  | [] => None
  end.

(** The optional fraction of [NUMBER_RE]: a point and at least one digit. *)
Definition lex_frac (s : str) : str * str :=
  match s with
  | c :: s' =>
      if Ascii.eqb c "."%char then
        match span_digits s' with
        | ([], _) => ([], s)
        | (ds, r) => (c :: ds, r)
        end
      else ([], s)
  | [] => ([], s)
  end.

(** The optional exponent of [NUMBER_RE]: [e] or [E], an optional sign and
    at least one digit. *)
Definition lex_exp (s : str) : str * str :=
  match s with
  | c :: s' =>
      if Ascii.eqb c "e"%char || Ascii.eqb c "E"%char then
        let (sign, s1) :=
          match s' with
          | d :: s'' =>
              if Ascii.eqb d "-"%char || Ascii.eqb d "+"%char
              then ([d], s'') else ([], s')
          | [] => ([], s')
          end in
        match span_digits s1 with
        | ([], _) => ([], s)
        | (ds, r) => (c :: sign ++ ds, r)
        end
      else ([], s)
  | [] => ([], s)
  end.

(** [NUMBER_RE.match]: the integer part, the fraction, the exponent and
    the text after the number. *)
Definition lex_number (s : str) : option (str * str * str * str) :=
  match lex_integer s with
  | None => None
  | Some (integer, s1) =>
      let (frac, s2) := lex_frac s1 in
      let (exp, s3) := lex_exp s2 in
      Some (integer, frac, exp, s3)
  end.

(** [match_number]: a number with a fraction or an exponent is read by
    [float()].  A number with neither is a Python [int], which the
    documents of the agent never hold and the model leaves out. *)
Definition parse_number (ft : float_text) (s : str) : option (json * str) :=
  match lex_number s with
  | None => None
  | Some (integer, frac, exp, s3) =>
      match frac ++ exp with
      | [] => None
      | _ :: _ =>
          match float_of_str ft (integer ++ frac ++ exp) with
          | Some x => Some (JNumber x, s3)
          | None => None
          end
      end
  end.

(** The constants and the numbers of [scan_once]. *)
Definition parse_atom (ft : float_text) (s : str) : option (json * str) :=
  match s with
  | "n"%char :: "u"%char :: "l"%char :: "l"%char :: r => Some (JNull, r)
  | "t"%char :: "r"%char :: "u"%char :: "e"%char :: r => Some (JBool true, r)
  | "f"%char :: "a"%char :: "l"%char :: "s"%char :: "e"%char :: r =>
      Some (JBool false, r)
  | _ => parse_number ft s
  end.

(** [dict(pairs)]: a repeated key keeps its first place and takes the last
    value. *)
Fixpoint dict_set (d : list (str * json)) (key : str) (v : json)
    : list (str * json) :=
  match d with
  | [] => [(key, v)]
  | (k, w) :: d' =>
      if bool_decide (k = key) then (k, v) :: d'
      else (k, w) :: dict_set d' key v
  end.

Definition dict_of_pairs (pairs : list (str * json)) : list (str * json) :=
  fold_left (fun d kv => dict_set d (fst kv) (snd kv)) pairs [].

(** [scan_once], [JSONArray] and [JSONObject].  [fuel] bounds the nesting
    depth and the number of items in a row; [loads] passes more than the
    length of the text.  [parse_elems] starts at a value of a list,
    [parse_members] after the opening quote of a key. *)
Fixpoint parse_value (ft : float_text) (fuel : nat) (s : str)
    : option (json * str) :=
  match fuel with
  | 0 => None
  | S fuel' =>
      match s with
      | [] => None
      | c :: s' =>
          if Ascii.eqb c quote then
            match scanstring s' with
            | Some (text, r) => Some (JString text, r)
            | None => None
            end
          else if Ascii.eqb c "{"%char then
            match skip_ws s' with
            | d :: r =>
                if Ascii.eqb d "}"%char then Some (JObject [], r)
                else if Ascii.eqb d quote then
                  match parse_members ft fuel' r with
                  | Some (pairs, r') => Some (JObject (dict_of_pairs pairs), r')
                  | None => None
                  end
                else None
            | [] => None
            end
          else if Ascii.eqb c "["%char then
            match skip_ws s' with
            | d :: r =>
                if Ascii.eqb d "]"%char then Some (JArray [], r)
                else
                  match parse_elems ft fuel' (d :: r) with
                  | Some (elems, r') => Some (JArray elems, r')
                  | None => None
                  end
            | [] => None
            end
          else parse_atom ft s
      end
  end
with parse_elems (ft : float_text) (fuel : nat) (s : str)
    : option (list json * str) :=
  match fuel with
  | 0 => None
  | S fuel' =>
      match parse_value ft fuel' s with
      | None => None
      | Some (v, r) =>
          match skip_ws r with
          | d :: r' =>
              if Ascii.eqb d "]"%char then Some ([v], r')
              else if Ascii.eqb d ","%char then
                match parse_elems ft fuel' (skip_ws r') with
                | Some (vs, r'') => Some (v :: vs, r'')
                | None => None
                end
              else None
          | [] => None
          end
      end
  end
with parse_members (ft : float_text) (fuel : nat) (s : str)
    : option (list (str * json) * str) :=
  match fuel with
  | 0 => None
  | S fuel' =>
      match scanstring s with
      | None => None
      | Some (key, r) =>
          match skip_ws r with
          | colon :: r1 =>
              if Ascii.eqb colon ":"%char then
                match parse_value ft fuel' (skip_ws r1) with
                | None => None
                | Some (v, r2) =>
                    match skip_ws r2 with
                    | d :: r3 =>
                        if Ascii.eqb d "}"%char then Some ([(key, v)], r3)
                        else if Ascii.eqb d ","%char then
                          match skip_ws r3 with
                          | q :: r4 =>
                              if Ascii.eqb q quote then
                                match parse_members ft fuel' r4 with
                                | Some (kvs, r5) => Some ((key, v) :: kvs, r5)
                                | None => None
                                end
                              else None
                          | [] => None
                          end
                        else None
                    | [] => None
                    end
                end
              else None
          | [] => None
          end
      end
  end.

(** [json.loads]: one value between optional white space, nothing else. *)
Definition loads (ft : float_text) (text : str) : option json :=
  match parse_value ft (S (length text)) (skip_ws text) with
  | Some (v, r) =>
      match skip_ws r with
      | [] => Some v
      | _ :: _ => None
      end
  | None => None
  end.

End Json.

(** *** The facts file *)

Definition json_of_notes (o : option str) : json :=
  match o with Some s => JString s | None => JNull end.

(** A fact as the dictionary [remember_fact] builds, with ["deleted_at"]
    added last by [forget_fact]. *)
Definition json_of_fact (f : fact) : json :=
  JObject
    ([($"id", JString (fid f));
      ($"subject", JString (subject f));
      ($"value", JString (value f));
      ($"provenance", JString (provenance f));
      ($"confidence", JNumber (confidence f));
      ($"added_at", JString (added_at f));
      ($"notes", json_of_notes (notes f));
      ($"tags", JArray (map JString (tags f)));
      ($"deleted", JBool (deleted f));
      ($"metadata", JObject (metadata f))]
     ++ match deleted_at f with
        | Some t => [($"deleted_at", JString t)]
        | None => []
        end).

(** [memory["facts"]], the dictionary with the one key ["items"]. *)
Definition json_of_facts (items : list fact) : json :=
  JObject [($"items", JArray (map json_of_fact items))].

(** The text [save_memory] writes to [memory/facts.json]. *)
Definition facts_text (ft : float_text) (mem : Memory) : str :=
  Json.dumps ft (json_of_facts (facts mem)) ++ newline.

Definition get_str (d : list (str * json)) (key : str) : option str :=
  match dict_get d key JNull with JString s => Some s | _ => None end.

Fixpoint strs_of_json (l : list json) : option (list str) :=
  match l with
  | [] => Some []
  | JString s :: l' =>
      match strs_of_json l' with Some ss => Some (s :: ss) | None => None end
  | _ :: _ => None
  end.

(** A loaded dictionary read back as a fact record: every key of
    [remember_fact] with a value of its type, and ["deleted_at"] if there. *)
Definition fact_of_json (v : json) : option fact :=
  match v with
  | JObject d =>
      match get_str d $"id", get_str d $"subject", get_str d $"value",
            get_str d $"provenance", dict_get d $"confidence" JNull,
            get_str d $"added_at", dict_get d $"notes" (JBool false),
            dict_get d $"tags" JNull, dict_get d $"deleted" JNull,
            dict_get d $"metadata" JNull with
      | Some i, Some s, Some v, Some p, JNumber c, Some a, n,
        JArray ts, JBool del, JObject m =>
          match strs_of_json ts,
                match n with
                | JNull => Some None
                | JString t => Some (Some t)
                | _ => None
                end,
                match dict_get d $"deleted_at" JNull with
                | JNull => Some None
                | JString t => Some (Some t)
                | _ => None
                end with
          | Some ts', Some n', Some da =>
              Some (mkFact i s v p c a n' ts' del da m)
          | _, _, _ => None
          end
      | _, _, _, _, _, _, _, _, _, _ => None
      end
  | _ => None
  end.

Fixpoint facts_of_jsons (l : list json) : option (list fact) :=
  match l with
  | [] => Some []
  | v :: l' =>
      match fact_of_json v, facts_of_jsons l' with
      | Some f, Some fs => Some (f :: fs)
      | _, _ => None
      end
  end.

(** What [load_memory] finds in [memory/facts.json]: the items of the
    dictionary that [json.load] returns. *)
Definition load_facts (ft : float_text) (text : str) : option (list fact) :=
  match Json.loads ft text with
  | Some (JObject d) =>
      match dict_get d $"items" JNull with
      | JArray l => facts_of_jsons l
      | _ => None
      end
  | _ => None
  end.

(** *** When a document can be written and read back *)

(** [tok] is, as a whole, a JSON number with a fraction or an exponent. *)
Definition float_shaped (tok : str) : bool :=
  match Json.lex_number tok with
  | Some (_, frac, exp, []) => nonempty (frac ++ exp)
  | _ => false
  end.

(** [r] cannot continue a number: it is empty or begins with a character
    that is not a digit, a point, an exponent mark or a sign. *)
Definition delimited (r : str) : bool :=
  match r with
  | [] => true
  | c :: _ => negb (Json.is_digit c || Str.mem c $".eE+-")
  end.

(** What Python guarantees of a finite float [x]: [repr(x)] is a JSON
    number with a fraction or an exponent, and [float(repr(x))] is [x]. *)
Definition printable_float (ft : float_text) (x : float) : Prop :=
  float_shaped (float_repr ft x) = true
  /\ float_of_str ft (float_repr ft x) = Some x.

(** A value whose floats are printable and whose dictionaries have, as
    Python dictionaries do, no key twice. *)
Inductive printable (ft : float_text) : json -> Prop :=
| printable_null : printable ft JNull
| printable_bool (b : bool) : printable ft (JBool b)
| printable_number (x : float) :
    printable_float ft x -> printable ft (JNumber x)
| printable_string (s : str) : printable ft (JString s)
| printable_array (elems : list json) :
    Forall (printable ft) elems -> printable ft (JArray elems)
| printable_object (members : list (str * json)) :
    NoDup (map fst members) ->
    Forall (fun kv => printable ft (snd kv)) members ->
    printable ft (JObject members).

(** The characters a written value can begin with: a quote, a bracket, a
    brace, the first letter of a constant, a minus sign or a digit. *)
Definition value_start (c : ascii) : bool :=
  Json.is_digit c || Str.mem c [Json.quote; "{"; "["; "n"; "t"; "f"; "-"]%char.

(** One member of a dictionary as [dumps_at] writes it. *)
Definition dump_member (ft : float_text) (level : nat) (kv : str * json) : str :=
  Json.encode_basestring (fst kv) ++ $": " ++ Json.dumps_at ft level (snd kv).

(** [json.load] reads [v] back from its text at any depth, before any
    delimiter and with any fuel above the length of that text. *)
Definition reads_back (ft : float_text) (v : json) : Prop :=
  forall (level : nat) (r : str) (fuel : nat),
    delimited r = true ->
    length (Json.dumps_at ft level v) < fuel ->
    Json.parse_value ft fuel (Json.dumps_at ft level v ++ r) = Some (v, r).

(** A fact that [save_memory] can write: printable confidence and
    metadata. *)
Definition storable (ft : float_text) (f : fact) : Prop :=
  printable_float ft (confidence f) /\ printable ft (JObject (metadata f)).

(** A stand-in for [repr] and [float()] on the three default confidences,
    used by the examples. *)
Definition default_floats : float_text :=
  mkFloatText
    (fun x =>
       if PrimFloat.eqb x 0.2 then $"0.2"
       else if PrimFloat.eqb x 0.8 then $"0.8"
       else $"0.5")
    (fun s =>
       if bool_decide (s = $"0.2") then Some 0.2%float
       else if bool_decide (s = $"0.8") then Some 0.8%float
       else if bool_decide (s = $"0.5") then Some 0.5%float
       else None).

(* ===================================================================== *)
(** ** Specification-side definitions *)
(* ===================================================================== *)

(** The matching rule as the specification words it: a fact that is not
    soft-deleted and, case-insensitively, (a) the query is a substring of
    its subject, or (b) its subject is a substring of the query, or (c) the
    query is a substring of its value. *)
Definition matches_query (query : str) (f : fact) : bool :=
  negb (deleted f) &&
  (Str.contains (Str.lower query) (Str.lower (subject f))
   || Str.contains (Str.lower (subject f)) (Str.lower query)
   || Str.contains (Str.lower query) (Str.lower (value f))).

(** [find_matching] of the specification: the matching facts, in store
    order, each as often as it is stored. *)
Definition find_matching (query : str) (items : list fact) : list fact :=
  List.filter (matches_query query) items.

(** The five action tags [respond] writes to the log. *)
Definition recognized_tags : list str :=
  [$"search_web"; $"remember_fact"; $"remember_preference"; $"forget_fact";
   $"answer"].

(** A query that [forget_fact] treats as a no-op. *)
Definition blank (query : str) : bool := forallb Str.isspace query.

(** A small store used by the examples: an agent with empty files. *)
Definition fresh_agent : AxonAgent :=
  mkAgent (mkPaths (Some []) [] ∅ []) (mkMemory [] ∅) []
    (fun n => $"2024-01-01T00:00:0" ++ Str.of_nat n ++ $"+00:00") 0
    (fun n => $"id" ++ Str.of_nat n) 0.

Definition stored_fact (subject value : str) (deleted : bool) : fact :=
  mkFact $"f" subject value $"user" 0.2%float $"t" None [] deleted None [].

(** The agent once [respond] has run [load_axioms] and [load_memory]:
    memory and axioms are what the files hold. *)
Definition loaded (self : AxonAgent) : AxonAgent :=
  mkAgent (paths self)
    (mkMemory (facts_file (paths self)) (preferences_file (paths self)))
    (match config (paths self) with Some text => text | None => [] end)
    (clock self) (ticks self) (uuid4 self) (drawn self).

(** The agent once [respond] has run [save_memory] and [update_logs] on the
    state [s] its if/elif chain left. *)
Definition logged (s : AxonAgent) (entry : log_entry) : AxonAgent :=
  mkAgent
    (mkPaths (config (paths s)) (facts (memory s)) (preferences (memory s))
       (logs (paths s) ++ [entry]))
    (memory s) (axioms s) (clock s) (S (ticks s)) (uuid4 s) (drawn s).

(** The stored fact of the "Qui est Paris" scenario. *)
Definition paris_fact : fact :=
  mkFact $"0f8fad5bd9cb469fa16570867728950e" $"Paris"
    $"la capitale de la France" $"user" 0.2%float
    $"2024-01-01T00:00:00+00:00" None [] false None [].

(** An agent whose facts file holds [paris_fact] after a deleted fact. *)
Definition paris_agent : AxonAgent :=
  mkAgent
    (mkPaths None [stored_fact $"Lyon" $"une ville" true; paris_fact] ∅ [])
    (mkMemory [] ∅) [] (clock fresh_agent) 0 (uuid4 fresh_agent) 0.

(** [s] does not begin with a character of the class [p]. *)
Definition starts_ok (p : ascii -> bool) (s : str) : bool :=
  match s with
  | [] => true
  | c :: _ => negb (p c)
  end.

(** [s] does not end with a character of the class [p]. *)
Definition ends_ok (p : ascii -> bool) (s : str) : bool := starts_ok p (rev s).

(** [X] holds no line feed: [.] matches each of its characters. *)
Definition on_one_line (X : str) : bool := forallb Re.dot X.

(** [rest] is the end of the text or begins with a line feed. *)
Definition at_line_end (rest : str) : bool := starts_ok Re.dot rest.


(** A fact that a run of [forget_fact query] passes over. *)
Definition settled (query : str) (f : fact) : Prop :=
  deleted f = true
  \/ Str.contains (Str.lower query) (Str.lower (subject f)) = false.

(** What no branch of [respond] touches before the final save: the files,
    the clock and the uuid source. *)
Definition same_world (s s' : AxonAgent) : Prop :=
  paths s' = paths s /\ clock s' = clock s /\ uuid4 s' = uuid4 s.

(* ===================================================================== *)
(** ** Further specification-side definitions *)
(* ===================================================================== *)

(** The test of [forget_fact] on one fact: it is not deleted yet and its
    lowered subject contains the lowered query. *)
Definition hit (query : str) (f : fact) : bool :=
  negb (deleted f)
  && Str.contains (Str.lower query) (Str.lower (subject f)).

(** [fact["deleted"] = True; fact["deleted_at"] = now]: every other key
    stays. *)
Definition mark_deleted (f : fact) (now : str) : fact :=
  mkFact (fid f) (subject f) (value f) (provenance f) (confidence f)
    (added_at f) (notes f) (tags f) true (Some now) (metadata f).

(** What one run of [forget_fact query] may do to a stored fact: leave it,
    or soft-delete it if it was hit. *)
Definition forgotten (query : str) (f f' : fact) : Prop :=
  (hit query f = false /\ f' = f)
  \/ (hit query f = true /\ exists now, f' = mark_deleted f now).

(** What any method may do to a stored fact: leave it, or soft-delete it if
    it was not deleted. *)
Definition kept (f f' : fact) : Prop :=
  f' = f \/ (deleted f = false /\ exists now, f' = mark_deleted f now).

(** [memory["preferences"][category][item]], when both keys are there. *)
Definition pref_lookup (prefs : gmap str (gmap str pref))
    (category item : str) : option pref :=
  prefs !! category ≫= (fun block => block !! item).

(** The triggers [respond] looks for before the preference ones. *)
Definition search_fact_triggers : list str :=
  [$"cherche"; $"google"; $"web"; $"apprends que"; $"tiens sache que"].

(** The triggers [respond] looks for before "oublie". *)
Definition forget_blockers : list str :=
  search_fact_triggers ++ [$"mon avis"; $"j'aime"; $"je n'aime pas"].

(** [json.dumps(obj, ensure_ascii=False)], without [indent]: the items of a
    list or dictionary are separated by a comma and a space, a key from its
    value by a colon and a space. *)
Fixpoint dumps_line (ft : float_text) (obj : json) : str :=
  match obj with
  | JNull => $"null"
  | JBool true => $"true"
  | JBool false => $"false"
  | JNumber x => float_repr ft x
  | JString s => Json.encode_basestring s
  | JArray elems =>
      "["%char :: Str.join $", " (map (dumps_line ft) elems) ++ ["]"%char]
  | JObject members =>
      "{"%char
      :: Str.join $", "
           (map (fun kv => Json.encode_basestring (fst kv) ++ $": "
                           ++ dumps_line ft (snd kv))
              members)
      ++ ["}"%char]
  end.

(** The dictionary [respond] hands to [update_logs]. *)
Definition json_of_log (entry : log_entry) : json :=
  JObject
    [($"timestamp", JString (timestamp entry));
     ($"prompt", JString (prompt entry));
     ($"response", JArray (map JString (response entry)));
     ($"actions", JArray (map JString (actions entry)));
     ($"updates", JArray (map JString (updates entry)))].

(** What [update_logs] appends to [memory/logs.jsonl] for one entry. *)
Definition log_line (ft : float_text) (entry : log_entry) : str :=
  dumps_line ft (json_of_log entry) ++ newline.

(** The text of [memory/logs.jsonl] after these entries were appended. *)
Definition logs_text (ft : float_text) (entries : list log_entry) : str :=
  concat (map (log_line ft) entries).

(** The number of line feeds in a text. *)
Definition line_feeds (text : str) : nat :=
  length (List.filter (Ascii.eqb "010"%char) text).

(** The four files under [root] as texts; [None] is a file that does not
    exist.  The directories, made with [mkdir(exist_ok=True)], hold nothing
    else and are not modelled. *)
Record Disk := mkDisk {
  facts_path : option str;         (* memory/facts.json *)
  preferences_path : option str;   (* memory/preferences.json *)
  logs_path : option str;          (* memory/logs.jsonl *)
  config_path : option str         (* config/axiomes.md *)
}.

(** [if not path.exists(): path.write_text(text)] *)
Definition write_if_missing (file : option str) (text : str) : option str :=
  match file with
  | Some old => Some old
  | None => Some text
  end.

(** Ensure required directories and files exist before use. *)
Definition ensure_storage (ft : float_text) (disk : Disk) : Disk :=
  mkDisk
    (write_if_missing (facts_path disk)
       (Json.dumps ft (JObject [($"items", JArray [])])))
    (write_if_missing (preferences_path disk) (Json.dumps ft (JObject [])))
    (write_if_missing (logs_path disk) [])
    (write_if_missing (config_path disk) []).

(** [ws] is white space, at least one character. *)
Definition spaces (ws : str) : bool := nonempty ws && blank ws.


(** The opening words of the three question patterns, in the order
    [_extract_question_subject] tries them. *)
Definition question_words : list str :=
  [$"qui est"; $"qu'est-ce que"; $"quel est"].

(** The words tried before [t]. *)
Fixpoint tried_before (t : str) (words : list str) : list str :=
  match words with
  | [] => []
  | w :: words' =>
      if bool_decide (w = t) then [] else w :: tried_before t words'
  end.

(** Every trigger of the four branches that come before the answer. *)
Definition all_triggers : list str := forget_blockers ++ [$"oublie"].

(* ===================================================================== *)
(** ** Lemmas on strings *)
(* ===================================================================== *)

Section StrLemmas.
Import Str.

Lemma lstrip_by_all (p : ascii -> bool) (s : str) :
  forallb p s = true -> lstrip_by p s = [].
Proof.
  induction s as [|c s IH]; simpl; [reflexivity|].
  intros H. apply andb_true_iff in H as [Hc Hs]. rewrite Hc. auto.
Qed.

Lemma strip_blank (s : str) : forallb isspace s = true -> strip s = [].
Proof.
  intros H. unfold strip, strip_by, rstrip_by.
  rewrite (lstrip_by_all _ _ H). reflexivity.
Qed.

Lemma lstrip_by_starts_ok (p : ascii -> bool) (s : str) :
  starts_ok p (lstrip_by p s) = true.
Proof.
  induction s as [|c s IH]; simpl; [reflexivity|].
  destruct (p c) eqn:Hc; [exact IH|]. simpl. now rewrite Hc.
Qed.

Lemma lstrip_by_fixed (p : ascii -> bool) (s : str) :
  starts_ok p s = true -> lstrip_by p s = s.
Proof.
  destruct s as [|c s]; simpl; [reflexivity|].
  intros H. apply negb_true_iff in H. now rewrite H.
Qed.

Lemma lstrip_by_app_keep (p : ascii -> bool) (l r : str) (c : ascii) :
  p c = false -> lstrip_by p (l ++ c :: r) = lstrip_by p l ++ c :: r.
Proof.
  intros Hc. induction l as [|a l IH]; simpl.
  - now rewrite Hc.
  - destruct (p a); [exact IH | reflexivity].
Qed.

Lemma rstrip_by_ends_ok (p : ascii -> bool) (s : str) :
  ends_ok p (rstrip_by p s) = true.
Proof.
  unfold ends_ok, rstrip_by. rewrite rev_involutive.
  apply lstrip_by_starts_ok.
Qed.

Lemma rstrip_by_fixed (p : ascii -> bool) (s : str) :
  ends_ok p s = true -> rstrip_by p s = s.
Proof.
  unfold ends_ok, rstrip_by. intros H.
  rewrite lstrip_by_fixed by exact H. apply rev_involutive.
Qed.

Lemma rstrip_by_starts_ok (p : ascii -> bool) (s : str) :
  starts_ok p s = true -> starts_ok p (rstrip_by p s) = true.
Proof.
  destruct s as [|c s]; [reflexivity|]. simpl. intros H.
  apply negb_true_iff in H. unfold rstrip_by. simpl rev.
  rewrite lstrip_by_app_keep by exact H.
  rewrite rev_app_distr. simpl. now rewrite H.
Qed.

Lemma strip_by_starts_ok (p : ascii -> bool) (s : str) :
  starts_ok p (strip_by p s) = true.
Proof. apply rstrip_by_starts_ok, lstrip_by_starts_ok. Qed.

Lemma strip_by_ends_ok (p : ascii -> bool) (s : str) :
  ends_ok p (strip_by p s) = true.
Proof. apply rstrip_by_ends_ok. Qed.

Lemma strip_by_fixed (p : ascii -> bool) (s : str) :
  starts_ok p s = true -> ends_ok p s = true -> strip_by p s = s.
Proof.
  intros Hs He. unfold strip_by.
  rewrite lstrip_by_fixed by exact Hs. now apply rstrip_by_fixed.
Qed.

Lemma starts_ok_app (p : ascii -> bool) (a b : str) :
  a <> [] -> starts_ok p a = true -> starts_ok p (a ++ b) = true.
Proof. destruct a; [congruence | auto]. Qed.

Lemma ends_ok_app (p : ascii -> bool) (a b : str) :
  ends_ok p a = true -> ends_ok p b = true -> ends_ok p (a ++ b) = true.
Proof.
  unfold ends_ok. rewrite rev_app_distr. intros Ha Hb.
  destruct (rev b) eqn:E; [exact Ha|]. exact Hb.
Qed.

(** A text that begins and ends with characters that are not white space
    stays as it is when put before a stripped text and stripped again. *)
Lemma strip_prefix_stripped (pre s : str) :
  pre <> [] -> starts_ok isspace pre = true -> ends_ok isspace pre = true ->
  strip (pre ++ strip s) = pre ++ strip s.
Proof.
  intros Hne Hs He. unfold strip at 1. apply strip_by_fixed.
  - now apply starts_ok_app.
  - apply ends_ok_app; [exact He | apply strip_by_ends_ok].
Qed.

Lemma startswith_iff (k s : str) :
  startswith k s = true <-> exists b, s = k ++ b.
Proof.
  revert s. induction k as [|a k IH]; intros s; simpl.
  - split; [intros _; now exists s | reflexivity].
  - destruct s as [|c s].
    + split; [discriminate | intros [b Hb]; discriminate].
    + rewrite andb_true_iff, Ascii.eqb_eq, IH. split.
      * intros [-> [b ->]]. now exists b.
      * intros [b Hb]. injection Hb as -> ->. split; [reflexivity | now exists b].
Qed.

Lemma contains_iff (k s : str) :
  contains k s = true <-> exists a b, s = a ++ k ++ b.
Proof.
  induction s as [|c s IH]; simpl; rewrite orb_true_iff, startswith_iff.
  - split.
    + intros [[b Hb] | H]; [| discriminate]. exists [], b. exact Hb.
    + intros [a [b Hab]]. left.
      destruct a; [now exists b | discriminate].
  - rewrite IH. split.
    + intros [[b Hb] | [a [b Hab]]].
      * exists [], b. exact Hb.
      * exists (c :: a), b. simpl. now rewrite Hab.
    + intros [a [b Hab]]. destruct a as [|c' a].
      * left. now exists b.
      * right. injection Hab as _ ->. now exists a, b.
Qed.


Lemma startswith_shorter (k u v : str) :
  length k <= length u -> startswith k (u ++ v) = true -> startswith k u = true.
Proof.
  revert u. induction k as [|a k IH]; intros u Hlen; simpl; [reflexivity|].
  destruct u as [|c u]; simpl in *; [lia|].
  rewrite !andb_true_iff. intros [Hac Hk]. split; [exact Hac|].
  apply IH; [lia | exact Hk].
Qed.

Lemma lstrip_by_suffix (p : ascii -> bool) (s : str) :
  exists l, s = l ++ lstrip_by p s.
Proof.
  induction s as [|c s [l IH]]; simpl.
  - now exists [].
  - destruct (p c).
    + exists (c :: l). simpl. now rewrite <- IH.
    + now exists [].
Qed.

Lemma rstrip_by_prefix (p : ascii -> bool) (s : str) :
  exists r, s = rstrip_by p s ++ r.
Proof.
  unfold rstrip_by. destruct (lstrip_by_suffix p (rev s)) as [l Hl].
  exists (rev l). rewrite <- rev_app_distr, <- Hl. now rewrite rev_involutive.
Qed.

(** A substring of the stripped text is a substring of the text. *)
Lemma contains_strip_by (p : ascii -> bool) (k s : str) :
  contains k (strip_by p s) = true -> contains k s = true.
Proof.
  rewrite !contains_iff. intros [a [b Hab]].
  destruct (lstrip_by_suffix p s) as [l Hl].
  destruct (rstrip_by_prefix p (lstrip_by p s)) as [r Hr].
  unfold strip_by in Hab. rewrite Hab in Hr.
  exists (l ++ a), (b ++ r). rewrite Hl at 1. rewrite Hr.
  now rewrite <- !app_assoc.
Qed.

Lemma rstrip_by_app_keep (p : ascii -> bool) (a k b : str) :
  k <> [] -> ends_ok p k = true ->
  rstrip_by p (a ++ k ++ b) = a ++ k ++ rstrip_by p b.
Proof.
  intros Hne He. unfold rstrip_by, ends_ok in *.
  rewrite !rev_app_distr.
  destruct (rev k) as [|d kr] eqn:E.
  { apply (f_equal (@rev ascii)) in E. rewrite rev_involutive in E.
    simpl in E. contradiction. }
  simpl in He. apply negb_true_iff in He.
  rewrite <- app_assoc. simpl app.
  rewrite lstrip_by_app_keep by exact He.
  rewrite rev_app_distr. simpl rev. rewrite rev_app_distr, rev_involutive.
  assert (Hk : k = rev kr ++ [d]).
  { rewrite <- (rev_involutive k), E. reflexivity. }
  rewrite Hk, <- !app_assoc. reflexivity.
Qed.

(** A substring that neither begins nor ends with a stripped character
    survives stripping. *)
Lemma contains_strip_by_keep (p : ascii -> bool) (k a b : str) :
  k <> [] -> starts_ok p k = true -> ends_ok p k = true ->
  contains k (strip_by p (a ++ k ++ b)) = true.
Proof.
  intros Hne Hs He. unfold strip_by.
  destruct k as [|c k'] eqn:Ek; [contradiction|]. rewrite <- Ek in *.
  assert (Hc : p c = false).
  { rewrite Ek in Hs. simpl in Hs. now apply negb_true_iff. }
  assert (Hl : lstrip_by p (a ++ k ++ b) = lstrip_by p a ++ k ++ b).
  { rewrite Ek. simpl. now apply lstrip_by_app_keep. }
  rewrite Hl, rstrip_by_app_keep by assumption.
  apply contains_iff. now exists (lstrip_by p a), (rstrip_by p b).
Qed.

Lemma any_in_false_cons (k : str) (ks : list str) (s : str) :
  any_in (k :: ks) s = false <-> contains k s = false /\ any_in ks s = false.
Proof. unfold any_in. simpl. apply orb_false_iff. Qed.

Lemma any_in_strip_false (ks : list str) (s : str) :
  any_in ks s = false -> any_in ks (strip s) = false.
Proof.
  induction ks as [|k ks IH]; [reflexivity|].
  rewrite !any_in_false_cons. intros [Hk Hks]. split; [|auto].
  destruct (contains k (strip s)) eqn:E; [|reflexivity].
  apply contains_strip_by in E. congruence.
Qed.

End StrLemmas.

(* ===================================================================== *)
(** ** Lemmas on the matcher *)
(* ===================================================================== *)

Section ReLemmas.
Import Re.

Lemma lower_app (a b : str) : Str.lower (a ++ b) = Str.lower a ++ Str.lower b.
Proof. apply map_app. Qed.

Lemma lower_length (a : str) : length (Str.lower a) = length a.
Proof. apply length_map. Qed.

(** A literal matches, ignoring case, any text with the same lowered
    characters. *)
Lemma lit_ic_app (t T s : str) :
  Str.lower T = Str.lower t -> lit true t (T ++ s) = Some s.
Proof.
  revert T. induction t as [|a t IH]; intros [|c T]; simpl;
    try discriminate; [reflexivity|].
  intros H. injection H as Hc HT. unfold char_eq.
  rewrite Hc, Ascii.eqb_refl. now apply IH.
Qed.

Lemma lit_ic_startswith (t s s' : str) :
  lit true t s = Some s' ->
  Str.startswith (Str.lower t) (Str.lower s) = true.
Proof.
  revert s. induction t as [|a t IH]; intros [|c s]; simpl;
    try discriminate; try reflexivity.
  unfold char_eq. destruct (Ascii.eqb _ _); [|discriminate].
  simpl. apply IH.
Qed.

Lemma lit_ic_none (t s : str) :
  Str.startswith (Str.lower t) (Str.lower s) = false -> lit true t s = None.
Proof.
  intros H. destruct (lit true t s) eqn:E; [|reflexivity].
  apply lit_ic_startswith in E. congruence.
Qed.

(** A greedy run takes all of a block of [ok] characters when the text after
    the block does not begin with one and the rest of the pattern accepts. *)
Lemma greedy_all {R : Type} (ok : ascii -> bool) (k : str -> str -> option R)
    (s r : str) (v : R) :
  s <> [] -> forallb ok s = true -> starts_ok ok r = true ->
  forall taken, k (taken ++ s) r = Some v ->
                greedy ok k taken (s ++ r) = Some v.
Proof.
  intros Hne Hall Hr. induction s as [|c s IH]; [contradiction|].
  intros taken Hk. simpl in *.
  apply andb_true_iff in Hall as [Hc Hs]. rewrite Hc.
  destruct s as [|c' s'].
  - simpl. destruct r as [|d r']; simpl.
    + exact Hk.
    + simpl in Hr. apply negb_true_iff in Hr. rewrite Hr. exact Hk.
  - rewrite (IH ltac:(discriminate) Hs (taken ++ [c])); [reflexivity|].
    now rewrite <- app_assoc.
Qed.

Lemma search_from_hit (ic : bool) (ats : list atom) (s : str) (m : rmatch) :
  match_here ic ats [] s = Some m -> search_from ic ats s = Some m.
Proof. intros H. destruct s; simpl; now rewrite H. Qed.

Lemma search_from_cons (ic : bool) (ats : list atom) (c : ascii) (s : str) :
  search_from ic ats (c :: s)
  = match match_here ic ats [] (c :: s) with
    | Some m => Some m
    | None => search_from ic ats s
    end.
Proof. reflexivity. Qed.

(** The search passes over a prefix at no position of which the pattern
    matches. *)
Lemma search_from_skip (ic : bool) (ats : list atom) (pre s : str) :
  (forall a b, pre = a ++ b -> b <> [] -> match_here ic ats [] (b ++ s) = None) ->
  search_from ic ats (pre ++ s) = search_from ic ats s.
Proof.
  induction pre as [|c pre IH]; intros H; [reflexivity|].
  change ((c :: pre) ++ s) with (c :: (pre ++ s)).
  rewrite search_from_cons.
  pose proof (H [] (c :: pre) eq_refl ltac:(discriminate)) as H0.
  change ((c :: pre) ++ s) with (c :: (pre ++ s)) in H0. rewrite H0.
  apply IH. intros a b -> Hb. apply (H (c :: a) b); [reflexivity | exact Hb].
Qed.




End ReLemmas.

(* ===================================================================== *)
(** ** The fact matcher *)
(* ===================================================================== *)

Lemma find_loop_filter (q : str) (items matches : list fact) :
  find_loop (Str.lower q) items matches
  = matches ++ List.filter (matches_query q) items.
Proof.
  revert matches.
  induction items as [|f rest IH]; intros matches; simpl.
  - now rewrite app_nil_r.
  - unfold matches_query at 1.
    destruct (deleted f); simpl; [apply IH|].
    destruct (Str.contains (Str.lower q) (Str.lower (subject f))
              || Str.contains (Str.lower (subject f)) (Str.lower q)); simpl.
    + rewrite IH, <- app_assoc. reflexivity.
    + destruct (Str.contains (Str.lower q) (Str.lower (value f))).
      * rewrite IH, <- app_assoc. reflexivity.
      * apply IH.
Qed.

(** C1, as stated, fails: a stored fact with subject "France" is returned
    for the query "Pa" when its value contains "pa". *)
Lemma france_matches_pa_by_value :
  _find_matching_facts
    (mkMemory [stored_fact $"France" $"un pays d'Europe" false] ∅) $"Pa"
  = [stored_fact $"France" $"un pays d'Europe" false].
Proof. vm_compute. reflexivity. Qed.

(** C1 (amended): for every query and store, [_find_matching_facts] returns
    exactly the facts that are not soft-deleted and for which,
    case-insensitively, the query is a substring of the subject, the subject
    is a substring of the query, or the query is a substring of the value;
    they come in store order, nothing is removed or reordered.  A fact with
    subject "France" satisfies neither subject condition for the query "Pa":
    it is returned exactly when it is not deleted and its value contains
    "pa". *)
Theorem find_matching_facts_spec :
  (forall (mem : Memory) (query : str),
      _find_matching_facts mem query = find_matching query (facts mem))
  /\ (forall f : fact,
         subject f = $"France" ->
         Str.contains $"pa" (Str.lower (subject f)) = false
         /\ Str.contains (Str.lower (subject f)) $"pa" = false
         /\ matches_query $"Pa" f
            = negb (deleted f) && Str.contains $"pa" (Str.lower (value f))).
Proof.
  split.
  - intros mem query. unfold _find_matching_facts, find_matching.
    now rewrite find_loop_filter.
  - intros f Hs. unfold matches_query. rewrite Hs.
    repeat split; reflexivity.
Qed.

(** An instance: a store with a Paris fact and a France fact whose value
    does not contain "pa". *)
Lemma find_matching_facts_spec_witness :
  let f := stored_fact $"France" $"la capitale de l'Europe" false in
  _find_matching_facts (mkMemory [paris_fact; f] ∅) $"Pa"
  = find_matching $"Pa" [paris_fact; f]
  /\ matches_query $"Pa" f = false.
Proof.
  destruct find_matching_facts_spec as [Hspec Hfrance].
  split.
  - apply Hspec.
  - destruct (Hfrance (stored_fact $"France" $"la capitale de l'Europe" false)
                eq_refl) as (_ & _ & ->).
    reflexivity.
Defined.

(* ===================================================================== *)
(** ** [remember_fact] *)
(* ===================================================================== *)

(** C2: the fact [remember_fact] appends to the store and returns carries
    the explicit confidence when one is given; without one it carries 0.2
    for provenance "user", 0.8 for "web" and 0.5 for any other provenance. *)
Theorem remember_fact_confidence
    (subj val prov : str) (conf : option float)
    (notes : option str) (tags : option (list str))
    (metadata : option (list (str * json))) (self : AxonAgent) :
  let '(stored, self') :=
    remember_fact subj val prov conf notes tags metadata self in
  facts (memory self') = facts (memory self) ++ [stored]
  /\ provenance stored = prov
  /\ (forall c, conf = Some c -> confidence stored = c)
  /\ (conf = None -> prov = $"user" -> confidence stored = 0.2%float)
  /\ (conf = None -> prov = $"web" -> confidence stored = 0.8%float)
  /\ (conf = None -> prov <> $"user" -> prov <> $"web" ->
      confidence stored = 0.5%float).
Proof.
  unfold remember_fact, bind, ret, uuid4_hex, _now, get_memory, set_memory.
  simpl. repeat split.
  - intros c ->. reflexivity.
  - intros -> ->. reflexivity.
  - intros -> ->. reflexivity.
  - intros -> Hu Hw. simpl.
    rewrite !bool_decide_eq_false_2 by congruence. reflexivity.
Qed.

(** An instance: two facts remembered without a confidence, one by the
    user, one with a provenance of its own. *)
Lemma remember_fact_confidence_witness :
  let '(by_user, self1) :=
    remember_fact $"Paris" $"la capitale de la France" $"user"
      None None None None fresh_agent in
  let '(by_hand, _) :=
    remember_fact $"Lyon" $"une ville" $"journal"
      None None None None self1 in
  confidence by_user = 0.2%float /\ confidence by_hand = 0.5%float.
Proof.
  pose proof (remember_fact_confidence $"Paris" $"la capitale de la France"
                $"user" None None None None fresh_agent) as H1.
  revert H1.
  destruct (remember_fact $"Paris" $"la capitale de la France" $"user"
              None None None None fresh_agent) as [by_user self1].
  intros (_ & _ & _ & Huser & _).
  pose proof (remember_fact_confidence $"Lyon" $"une ville" $"journal"
                None None None None self1) as H2.
  revert H2.
  destruct (remember_fact $"Lyon" $"une ville" $"journal"
              None None None None self1) as [by_hand self2].
  intros (_ & _ & _ & _ & _ & Hother).
  split.
  - now apply Huser.
  - apply Hother; [reflexivity | discriminate | discriminate].
Defined.

(* ===================================================================== *)
(** ** [forget_fact] *)
(* ===================================================================== *)

(** C6: on an empty or whitespace-only query [forget_fact] returns 0 and
    changes nothing: no fact, flag or timestamp, nor anything else of the
    agent. *)
Theorem forget_fact_blank (query : str) (self : AxonAgent) :
  blank query = true -> forget_fact query self = (0, self).
Proof.
  intros Hb. unfold forget_fact.
  rewrite (strip_blank query Hb). reflexivity.
Qed.

(** An instance: a query of a space, a tabulation and a space. *)
Lemma forget_fact_blank_witness :
  let self :=
    mkAgent (mkPaths None [] ∅ [])
      (mkMemory [stored_fact $"Paris" $"la capitale de la France" false] ∅)
      [] (clock fresh_agent) 0 (uuid4 fresh_agent) 0 in
  blank [" "%char; "009"%char; " "%char] = true
  /\ forget_fact [" "%char; "009"%char; " "%char] self = (0, self).
Proof.
  split; [reflexivity | apply forget_fact_blank; reflexivity].
Defined.

Lemma forget_loop_settled (query : str) (items : list fact) :
  Forall (settled query) items ->
  forall (count : nat) (self : AxonAgent),
    forget_loop query items count self = ((items, count), self).
Proof.
  induction 1 as [|f rest Hf _ IH]; intros count self; simpl.
  - reflexivity.
  - destruct Hf as [Hd | Hc].
    + rewrite Hd. unfold bind. rewrite IH. reflexivity.
    + destruct (deleted f); unfold bind.
      * rewrite IH. reflexivity.
      * rewrite Hc. rewrite IH. reflexivity.
Qed.

Lemma forget_loop_settles (query : str) (items : list fact) :
  forall (count : nat) (self : AxonAgent),
    Forall (settled query) (fst (fst (forget_loop query items count self))).
Proof.
  induction items as [|f rest IH]; intros count self; simpl.
  - constructor.
  - destruct (deleted f) eqn:Hd; unfold bind.
    + specialize (IH count self).
      destruct (forget_loop query rest count self) as [[items' n] self'].
      simpl in *. constructor; [now left | exact IH].
    + destruct (Str.contains (Str.lower query) (Str.lower (subject f))) eqn:Hc.
      * unfold _now at 1.
        match goal with
        | |- context [forget_loop query rest ?c ?s] =>
            specialize (IH c s); destruct (forget_loop query rest c s) as [[items' n] self']
        end.
        simpl in *. constructor; [now left | exact IH].
      * specialize (IH count self).
        destruct (forget_loop query rest count self) as [[items' n] self'].
        simpl in *. constructor; [now right | exact IH].
Qed.

(** C10: [forget_fact] is idempotent.  Run again with the same query on the
    state the first call left, it returns 0 and leaves that state as it is,
    every [deleted] flag and [deleted_at] timestamp included. *)
Theorem forget_fact_idempotent (query : str) (self : AxonAgent) :
  let '(_, self1) := forget_fact query self in
  forget_fact query self1 = (0, self1).
Proof.
  unfold forget_fact.
  destruct (Str.strip query) as [|c q'] eqn:Hq; [reflexivity|].
  unfold bind, get_memory, ret.
  pose proof (forget_loop_settles query (facts (memory self)) 0 self) as Hs.
  destruct (forget_loop query (facts (memory self)) 0 self)
    as [[items' n] self'] eqn:Hloop.
  simpl in Hs. unfold set_memory at 1. simpl.
  rewrite forget_loop_settled by exact Hs.
  simpl. reflexivity.
Qed.

(* ===================================================================== *)
(** ** The shape of a [respond] call *)
(* ===================================================================== *)

Lemma respond_unfold (prompt : str) (self : AxonAgent) :
  respond prompt self =
  let '((response_lines, actions, updates_performed), s) :=
    dispatch prompt (loaded self) in
  (Str.join newline response_lines,
   logged s (mkLog (clock s (ticks s)) prompt response_lines actions
               updates_performed)).
Proof.
  unfold respond, bind, load_axioms, load_memory, get_paths, get_memory,
    set_axioms, set_memory, bind, loaded.
  simpl.
  assert (Hload :
    (let (_, self') :=
       match config (paths self) with
       | Some text => set_axioms text
       | None => set_axioms []
       end self in
     mkAgent (paths self')
       (mkMemory (facts_file (paths self')) (preferences_file (paths self')))
       (axioms self') (clock self') (ticks self') (uuid4 self') (drawn self'))
    = loaded self).
  { unfold loaded. destruct (config (paths self)); reflexivity. }
  destruct (config (paths self)); unfold set_axioms; simpl;
    destruct (dispatch prompt _) as [[[lines acts] upds] s]; reflexivity.
Qed.

Lemma same_world_refl (s : AxonAgent) : same_world s s.
Proof. repeat split. Qed.

Lemma same_world_trans (s1 s2 s3 : AxonAgent) :
  same_world s1 s2 -> same_world s2 s3 -> same_world s1 s3.
Proof. unfold same_world. intuition congruence. Qed.

Lemma remember_fact_world subj val prov conf notes tags metadata self :
  same_world self
    (snd (remember_fact subj val prov conf notes tags metadata self)).
Proof. repeat split. Qed.

Lemma remember_preference_world cat it op self :
  same_world self (snd (remember_preference cat it op self)).
Proof. repeat split. Qed.

Lemma forget_loop_world (query : str) (items : list fact) :
  forall count self,
    same_world self (snd (forget_loop query items count self)).
Proof.
  induction items as [|f rest IH]; intros count self; simpl.
  - apply same_world_refl.
  - destruct (deleted f); unfold bind.
    + specialize (IH count self).
      destruct (forget_loop query rest count self) as [r s]. exact IH.
    + destruct (Str.contains _ _).
      * unfold _now at 1.
        match goal with
        | |- context [forget_loop query rest ?c ?s] =>
            specialize (IH c s); destruct (forget_loop query rest c s) as [r s']
        end.
        simpl in *. exact IH.
      * specialize (IH count self).
        destruct (forget_loop query rest count self) as [r s]. exact IH.
Qed.

Lemma forget_fact_world (query : str) (self : AxonAgent) :
  same_world self (snd (forget_fact query self)).
Proof.
  unfold forget_fact. destruct (Str.strip query); [apply same_world_refl|].
  unfold bind, get_memory.
  pose proof (forget_loop_world query (facts (memory self)) 0 self) as H.
  destruct (forget_loop query (facts (memory self)) 0 self) as [r s].
  exact H.
Qed.

Lemma store_results_world (query : str) (results : list search_result) :
  forall upd self,
    same_world self (snd (store_results query results upd self)).
Proof.
  induction results as [|r rest IH]; intros upd self; simpl.
  - apply same_world_refl.
  - unfold bind.
    match goal with
    | |- context [remember_fact ?a ?b ?c ?d ?e ?f ?g self] =>
        pose proof (remember_fact_world a b c d e f g self) as H1;
        destruct (remember_fact a b c d e f g self) as [stored s1]
    end.
    eapply same_world_trans; [exact H1 | apply IH].
Qed.

(** Every branch of the chain leaves the files alone and records exactly
    one recognized action tag. *)
Lemma dispatch_shape (prompt : str) (self : AxonAgent) :
  let '((_, actions, _), s) := dispatch prompt self in
  same_world self s
  /\ exists tag, actions = [tag] /\ In tag recognized_tags.
Proof.
  unfold dispatch.
  destruct (Str.any_in [$"cherche"; $"google"; $"web"] _).
  { unfold bind.
    pose proof (store_results_world (_extract_query prompt)
                  (search_web (_extract_query prompt)) [] self) as H.
    destruct (store_results _ _ _ self) as [upd s]. simpl.
    split; [exact H|]. eexists; split; [reflexivity|]. simpl; auto. }
  destruct (Str.any_in [$"apprends que"; $"tiens sache que"] _).
  { destruct (_parse_fact_statement prompt) as [data|]; simpl.
    - split; [repeat split|]. eexists; split; [reflexivity|]. simpl; auto.
    - split; [repeat split|]. eexists; split; [reflexivity|]. simpl; auto. }
  destruct (Str.any_in [$"mon avis"; $"j'aime"; $"je n'aime pas"] _).
  { destruct (_parse_preference_statement prompt) as [p|]; simpl.
    - split; [repeat split|]. eexists; split; [reflexivity|]. simpl; auto 6.
    - split; [repeat split|]. eexists; split; [reflexivity|]. simpl; auto 6. }
  destruct (Str.contains $"oublie" _).
  { destruct (negb (nonempty _)); simpl.
    - split; [repeat split|]. eexists; split; [reflexivity|]. simpl; auto 6.
    - unfold bind.
      match goal with
      | |- context [forget_fact ?q self] =>
          pose proof (forget_fact_world q self) as H;
          destruct (forget_fact q self) as [count s]
      end.
      destruct (negb (count =? 0)); simpl;
        (split; [exact H|]); eexists; (split; [reflexivity|]); simpl; auto 6. }
  destruct (_extract_question_subject prompt) as [[|c q]|].
  - simpl. split; [repeat split|]. eexists; split; [reflexivity|]. simpl; auto 7.
  - unfold bind, get_memory.
    destruct (_find_matching_facts (memory self) (c :: q)); simpl;
      (split; [repeat split|]); eexists; (split; [reflexivity|]); simpl; auto 7.
  - simpl. split; [repeat split|]. eexists; split; [reflexivity|]. simpl; auto 7.
Qed.

(** C5: whatever the prompt, one [respond] call appends exactly one entry
    to the log file, and that entry carries the prompt and one action tag,
    one of the five recognized ones; this covers the branches whose parser
    finds nothing. *)
Theorem respond_logs_one_entry (prompt0 : str) (self : AxonAgent) :
  let '(reply, self') := respond prompt0 self in
  exists (entry : log_entry) (tag : str),
    logs (paths self') = logs (paths self) ++ [entry]
    /\ prompt entry = prompt0
    /\ actions entry = [tag]
    /\ In tag recognized_tags
    /\ reply = Str.join newline (response entry).
Proof.
  rewrite respond_unfold.
  pose proof (dispatch_shape prompt0 (loaded self)) as H.
  destruct (dispatch prompt0 (loaded self)) as [[[lines acts] upds] s].
  destruct H as [[Hp _] [tag [Hacts Htag]]].
  exists (mkLog (clock s (ticks s)) prompt0 lines acts upds), tag.
  simpl. rewrite Hp. simpl. auto.
Qed.

(* ===================================================================== *)
(** ** Scenarios *)
(* ===================================================================== *)

(** C3: the prompt "Apprends que Paris est la capitale de la France" makes
    [respond] add exactly one fact to the stored ones, with subject "Paris",
    value "la capitale de la France", provenance "user" and confidence 0.2;
    the fact is persisted, and the reply echoes subject and value. *)
Theorem respond_learns_paris (self : AxonAgent) :
  let '(reply, self') :=
    respond $"Apprends que Paris est la capitale de la France" self in
  let new :=
    mkFact (uuid4 self (drawn self)) $"Paris" $"la capitale de la France"
      $"user" 0.2%float (clock self (ticks self)) None [] false None [] in
  facts (memory self') = facts_file (paths self) ++ [new]
  /\ facts_file (paths self') = facts_file (paths self) ++ [new]
  /\ preferences_file (paths self') = preferences_file (paths self)
  /\ reply
     = $"Je mémorise que Paris est la capitale de la France (provenance utilisateur).".
Proof.
  rewrite respond_unfold.
  destruct self as [[cfg ff pf lg] mem ax ck t u d].
  vm_compute. repeat split.
Qed.

Lemma filter_matches_live (query : str) (items : list fact) :
  List.filter (matches_query query) items
  = List.filter (matches_query query)
      (List.filter (fun g => negb (deleted g)) items).
Proof.
  induction items as [|f rest IH]; simpl; [reflexivity|].
  unfold matches_query at 1 3.
  destruct (deleted f) eqn:Hd; simpl.
  - exact IH.
  - unfold matches_query at 2. rewrite Hd. simpl.
    destruct (_ || _ || _); [f_equal|]; exact IH.
Qed.

Lemma dispatch_qui_est_paris (s : AxonAgent) :
  dispatch $"Qui est Paris" s =
  match find_matching $"paris" (facts (memory s)) with
  | (_ :: _) as matches => (answer_lines matches, [$"answer"], [], s)
  | [] => ([$"Je n'ai aucun fait correspondant en mémoire."], [$"answer"], [], s)
  end.
Proof.
  unfold dispatch. cbv zeta.
  replace (Str.strip (Str.lower $"Qui est Paris")) with $"qui est paris"
    by (vm_compute; reflexivity).
  replace (Str.any_in [$"cherche"; $"google"; $"web"] $"qui est paris")
    with false by (vm_compute; reflexivity).
  replace (Str.any_in [$"apprends que"; $"tiens sache que"] $"qui est paris")
    with false by (vm_compute; reflexivity).
  replace (Str.any_in [$"mon avis"; $"j'aime"; $"je n'aime pas"] $"qui est paris")
    with false by (vm_compute; reflexivity).
  replace (Str.contains $"oublie" $"qui est paris")
    with false by (vm_compute; reflexivity).
  replace (_extract_question_subject $"Qui est Paris") with (Some $"paris")
    by (vm_compute; reflexivity).
  cbn [list_ascii_of_string]. unfold bind, get_memory.
  unfold _find_matching_facts. rewrite find_loop_filter, app_nil_l.
  unfold find_matching.
  destruct (List.filter _ _); reflexivity.
Qed.

(** C7, as stated, fails: the response line for the stored Paris fact is
    not of the form that ends with the closing bracket of the timestamp; a
    full stop follows the bracket. *)
Lemma answer_line_ends_with_full_stop :
  let reply := fst (respond $"Qui est Paris" paris_agent) in
  reply
  = $"Selon user: Paris = la capitale de la France [2024-01-01T00:00:00+00:00]."
  /\ Str.endswith $"]" reply = false
  /\ Str.endswith $"]." reply = true.
Proof. vm_compute. repeat split. Qed.

(** C7 (amended): when the only stored fact that is not deleted has subject
    "Paris", value "la capitale de la France" and provenance "user", the
    prompt "Qui est Paris" is answered by exactly one response line,
    "Selon user: Paris = la capitale de la France [<added_at>]." with its
    final full stop, the line the answer branch writes for each match;
    nothing is stored. *)
Theorem respond_answers_paris (self : AxonAgent) (f : fact) :
  List.filter (fun g => negb (deleted g)) (facts_file (paths self)) = [f] ->
  subject f = $"Paris" ->
  value f = $"la capitale de la France" ->
  provenance f = $"user" ->
  let '(reply, self') := respond $"Qui est Paris" self in
  let line :=
    $"Selon user: Paris = la capitale de la France [" ++ added_at f ++ $"]" ++ $"." in
  reply = line
  /\ (exists entry, logs (paths self') = logs (paths self) ++ [entry]
                    /\ response entry = [line])
  /\ facts_file (paths self') = facts_file (paths self).
Proof.
  intros Hlive Hs Hv Hp.
  rewrite respond_unfold, dispatch_qui_est_paris.
  unfold find_matching. rewrite filter_matches_live.
  change (facts (memory (loaded self))) with (facts_file (paths self)).
  rewrite Hlive.
  assert (Hm : matches_query $"paris" f = true).
  { assert (Hd : negb (deleted f) = true).
    { assert (Hin : In f (List.filter (fun g => negb (deleted g))
                            (facts_file (paths self)))).
      { rewrite Hlive. now left. }
      apply filter_In in Hin. tauto. }
    unfold matches_query. rewrite Hd, Hs. reflexivity. }
  cbn [List.filter]. rewrite Hm.
  unfold answer_lines. cbn [map]. rewrite Hs, Hv, Hp.
  cbv zeta. split; [|split].
  - reflexivity.
  - eexists. split; [reflexivity|]. reflexivity.
  - reflexivity.
Qed.

(** An instance: the Paris fact stored after a deleted fact. *)
Lemma respond_answers_paris_witness :
  let '(reply, self') := respond $"Qui est Paris" paris_agent in
  let line :=
    $"Selon user: Paris = la capitale de la France ["
      ++ added_at paris_fact ++ $"]" ++ $"." in
  reply = line
  /\ (exists entry, logs (paths self') = logs (paths paris_agent) ++ [entry]
                    /\ response entry = [line])
  /\ facts_file (paths self') = facts_file (paths paris_agent).
Proof.
  apply (respond_answers_paris paris_agent paris_fact); reflexivity.
Defined.

(* ===================================================================== *)
(** ** The search branch *)
(* ===================================================================== *)

Lemma extract_query_stripped (prompt0 : str) :
  exists s, _extract_query prompt0 = Str.strip s.
Proof.
  unfold _extract_query.
  destruct (Re.search query_pattern prompt0); eexists; reflexivity.
Qed.

(** C9: with the default [search_web], a [respond] call that takes the
    search branch adds exactly one fact to the stored ones; its subject is
    "web_search:" followed by the extracted query, its provenance is "web",
    and its confidence is the placeholder's explicit 0.5, not the 0.8 that
    [remember_fact] gives to provenance "web" by default. *)
Theorem respond_search_stores_placeholder (prompt0 : str) (self : AxonAgent) :
  Str.any_in [$"cherche"; $"google"; $"web"] (Str.strip (Str.lower prompt0))
  = true ->
  let '(_, self') := respond prompt0 self in
  exists new : fact,
    facts (memory self') = facts_file (paths self) ++ [new]
    /\ facts_file (paths self') = facts_file (paths self) ++ [new]
    /\ subject new = $"web_search:" ++ _extract_query prompt0
    /\ provenance new = $"web"
    /\ confidence new = 0.5%float
    /\ confidence new <> dict_get confidence_map $"web" 0.5%float.
Proof.
  intros Hsearch.
  rewrite respond_unfold. unfold dispatch. cbv zeta. rewrite Hsearch.
  unfold search_web, store_results, bind, remember_fact, bind, ret,
    uuid4_hex, _now, get_memory, set_memory.
  cbn [r_subject r_summary r_provenance r_confidence r_url fst snd].
  destruct (extract_query_stripped prompt0) as [s Hq]. rewrite Hq.
  rewrite strip_prefix_stripped by (vm_compute; congruence).
  eexists. cbn [loaded logged facts memory paths facts_file subject
                  provenance confidence].
  repeat split.
  vm_compute. intros H.
  assert (E : PrimFloat.eqb 0.5 0.8 = true) by (rewrite H; reflexivity).
  vm_compute in E. discriminate E.
Qed.

(** An instance: the prompt "Cherche la capitale de la France". *)
Lemma respond_search_stores_placeholder_witness :
  let '(_, self') := respond $"Cherche la capitale de la France" fresh_agent in
  exists new : fact,
    facts (memory self') = facts_file (paths fresh_agent) ++ [new]
    /\ facts_file (paths self') = facts_file (paths fresh_agent) ++ [new]
    /\ subject new
       = $"web_search:" ++ _extract_query $"Cherche la capitale de la France"
    /\ provenance new = $"web"
    /\ confidence new = 0.5%float
    /\ confidence new <> dict_get confidence_map $"web" 0.5%float.
Proof.
  apply (respond_search_stores_placeholder
           $"Cherche la capitale de la France" fresh_agent).
  reflexivity.
Defined.

(* ===================================================================== *)
(** ** The preference branch: dislikes *)
(* ===================================================================== *)





(* ===================================================================== *)
(** ** The JSON round trip *)
(* ===================================================================== *)

Section JsonLemmas.
Import Json.

(** *** Numbers *)

Lemma delimited_no_digit (r : str) :
  delimited r = true -> starts_ok is_digit r = true.
Proof.
  destruct r as [|c r]; [reflexivity|]. simpl.
  rewrite !negb_true_iff, orb_false_iff. tauto.
Qed.

Lemma delimited_head (c : ascii) (r : str) :
  delimited (c :: r) = true ->
  is_digit c = false /\ Ascii.eqb c "."%char = false
  /\ Ascii.eqb c "e"%char = false /\ Ascii.eqb c "E"%char = false
  /\ Ascii.eqb c "+"%char = false /\ Ascii.eqb c "-"%char = false.
Proof.
  simpl. rewrite negb_true_iff, !orb_false_iff. tauto.
Qed.

Lemma span_digits_split (s : str) :
  s = fst (span_digits s) ++ snd (span_digits s).
Proof.
  induction s as [|c s IH]; simpl; [reflexivity|].
  destruct (is_digit c); [|reflexivity].
  destruct (span_digits s) as [ds r]. simpl in *. now rewrite <- IH.
Qed.

Lemma span_digits_app (s r : str) :
  starts_ok is_digit r = true ->
  span_digits (s ++ r)
  = (fst (span_digits s), snd (span_digits s) ++ r).
Proof.
  intros Hr. induction s as [|c s IH]; simpl.
  - destruct r as [|d r]; [reflexivity|]. simpl in *.
    apply negb_true_iff in Hr. now rewrite Hr.
  - destruct (is_digit c); [|reflexivity].
    rewrite IH. now destruct (span_digits s).
Qed.

Lemma lex_integer_split (s i s1 : str) :
  lex_integer s = Some (i, s1) -> s = i ++ s1.
Proof.
  unfold lex_integer.
  assert (Hcore : forall sign t,
    match t with
    | [] => None
    | c :: s' =>
        if Ascii.eqb c "0"%char then Some (sign ++ [c], s')
        else if is_digit c then
          let (ds, r) := span_digits s' in Some (sign ++ c :: ds, r)
        else None
    end = Some (i, s1) -> sign ++ t = i ++ s1).
  { intros sign [|c t]; [discriminate|].
    destruct (Ascii.eqb c "0"%char).
    - intros [= <- <-]. now rewrite <- app_assoc.
    - destruct (is_digit c); [|discriminate].
      pose proof (span_digits_split t) as Ht.
      destruct (span_digits t) as [ds r]. simpl in Ht.
      intros [= <- <-]. rewrite <- app_assoc. simpl. now rewrite <- Ht. }
  destruct s as [|c s]; [discriminate|].
  destruct (Ascii.eqb c "-"%char).
  - intros H. apply (Hcore [c] s H).
  - intros H. apply (Hcore [] (c :: s) H).
Qed.

Lemma lex_integer_app (s r i s1 : str) :
  delimited r = true ->
  lex_integer s = Some (i, s1) -> lex_integer (s ++ r) = Some (i, s1 ++ r).
Proof.
  intros Hr. unfold lex_integer.
  assert (Hcore : forall sign t,
    match t with
    | [] => None
    | c :: s' =>
        if Ascii.eqb c "0"%char then Some (sign ++ [c], s')
        else if is_digit c then
          let (ds, r) := span_digits s' in Some (sign ++ c :: ds, r)
        else None
    end = Some (i, s1) ->
    match t ++ r with
    | [] => None
    | c :: s' =>
        if Ascii.eqb c "0"%char then Some (sign ++ [c], s')
        else if is_digit c then
          let (ds, r) := span_digits s' in Some (sign ++ c :: ds, r)
        else None
    end = Some (i, s1 ++ r)).
  { intros sign [|c t]; [discriminate|]. simpl.
    destruct (Ascii.eqb c "0"%char).
    - now intros [= <- <-].
    - destruct (is_digit c); [|discriminate].
      rewrite span_digits_app by now apply delimited_no_digit.
      destruct (span_digits t) as [ds r']. simpl. now intros [= <- <-]. }
  destruct s as [|c s]; [discriminate|]. simpl.
  destruct (Ascii.eqb c "-"%char).
  - apply Hcore.
  - apply (Hcore [] (c :: s)).
Qed.

Lemma lex_frac_split (s : str) :
  s = fst (lex_frac s) ++ snd (lex_frac s).
Proof.
  destruct s as [|c s]; [reflexivity|]. simpl.
  destruct (Ascii.eqb c "."%char); [|reflexivity].
  pose proof (span_digits_split s) as Hs.
  destruct (span_digits s) as [[|d ds] r]; [reflexivity|].
  simpl in *. now rewrite <- Hs.
Qed.

Lemma lex_frac_app (s r : str) :
  delimited r = true ->
  lex_frac (s ++ r) = (fst (lex_frac s), snd (lex_frac s) ++ r).
Proof.
  intros Hr. destruct s as [|c s]; simpl.
  - destruct r as [|d r]; [reflexivity|].
    apply delimited_head in Hr as (_ & Hp & _). simpl. now rewrite Hp.
  - destruct (Ascii.eqb c "."%char); [|reflexivity].
    rewrite span_digits_app by now apply delimited_no_digit.
    now destruct (span_digits s) as [[|d ds] r'].
Qed.

Lemma lex_exp_split (s : str) :
  s = fst (lex_exp s) ++ snd (lex_exp s).
Proof.
  destruct s as [|c s]; [reflexivity|]. simpl.
  destruct (Ascii.eqb c "e"%char || Ascii.eqb c "E"%char); [|reflexivity].
  destruct s as [|d s'].
  - reflexivity.
  - destruct (Ascii.eqb d "-"%char || Ascii.eqb d "+"%char).
    + pose proof (span_digits_split s') as Hs.
      destruct (span_digits s') as [[|x ds] r]; [reflexivity|].
      simpl in *. now rewrite <- Hs.
    + pose proof (span_digits_split (d :: s')) as Hs.
      destruct (span_digits (d :: s')) as [[|x ds] r]; [reflexivity|].
      simpl in *. now rewrite <- Hs.
Qed.

Lemma lex_exp_app (s r : str) :
  delimited r = true ->
  lex_exp (s ++ r) = (fst (lex_exp s), snd (lex_exp s) ++ r).
Proof.
  intros Hr. pose proof (delimited_no_digit r Hr) as Hd.
  destruct s as [|c s]; simpl.
  - destruct r as [|d r]; [reflexivity|].
    apply delimited_head in Hr as (_ & _ & He & HE & _). simpl.
    now rewrite He, HE.
  - destruct (Ascii.eqb c "e"%char || Ascii.eqb c "E"%char); [|reflexivity].
    destruct s as [|d s']; simpl.
    + destruct r as [|d r]; [reflexivity|].
      pose proof (delimited_head d r Hr) as (Hdig & _ & _ & _ & Hplus & Hminus).
      rewrite Hminus, Hplus. simpl. now rewrite Hdig.
    + destruct (Ascii.eqb d "-"%char || Ascii.eqb d "+"%char).
      * rewrite span_digits_app by exact Hd.
        now destruct (span_digits s') as [[|x ds] r'].
      * change (d :: s' ++ r) with ((d :: s') ++ r).
        rewrite span_digits_app by exact Hd.
        now destruct (span_digits (d :: s')) as [[|x ds] r'].
Qed.

(** The scanner reads a printable float back, whatever delimiter follows. *)
Lemma parse_number_repr (ft : float_text) (x : float) (r : str) :
  printable_float ft x -> delimited r = true ->
  parse_number ft (float_repr ft x ++ r) = Some (JNumber x, r).
Proof.
  intros [Hshape Hval] Hr. unfold float_shaped, lex_number in Hshape.
  unfold parse_number, lex_number.
  destruct (lex_integer (float_repr ft x)) as [[i s1]|] eqn:Hi; [|discriminate].
  rewrite (lex_integer_app _ r i s1 Hr Hi).
  rewrite lex_frac_app by exact Hr.
  pose proof (lex_frac_split s1) as Hf.
  destruct (lex_frac s1) as [f s2]. cbn [fst snd] in *.
  rewrite lex_exp_app by exact Hr.
  pose proof (lex_exp_split s2) as He.
  destruct (lex_exp s2) as [e s3]. cbn [fst snd] in *.
  destruct s3 as [|c s3]; [|discriminate].
  apply lex_integer_split in Hi.
  assert (Htok : i ++ f ++ e = float_repr ft x).
  { rewrite Hi, Hf, He, app_nil_r. reflexivity. }
  rewrite Htok, Hval.
  destruct (f ++ e) as [|c fe]; [discriminate|]. reflexivity.
Qed.

(** *** Strings *)

Lemma scanstring_escape_char (c : ascii) (tail : str) :
  scanstring (escape_char c ++ tail) = prepend [c] (scanstring tail).
Proof.
  destruct c as [[] [] [] [] [] [] [] []]; reflexivity.
Qed.

Lemma scanstring_encode (s rest : str) :
  scanstring (concat (map escape_char s) ++ quote :: rest) = Some (s, rest).
Proof.
  induction s as [|c s IH]; [reflexivity|].
  cbn [map concat]. rewrite <- app_assoc, scanstring_escape_char, IH.
  reflexivity.
Qed.

(** *** White space and the first character of a value *)

Lemma lstrip_by_app_all (p : ascii -> bool) (l s : str) :
  forallb p l = true -> Str.lstrip_by p (l ++ s) = Str.lstrip_by p s.
Proof.
  induction l as [|c l IH]; [reflexivity|]. simpl.
  intros H. apply andb_true_iff in H as [Hc Hl]. rewrite Hc. auto.
Qed.

Lemma newline_indent_ws (level : nat) :
  forallb is_ws (newline_indent level) = true.
Proof.
  unfold newline_indent. cbn [forallb].
  induction (2 * level) as [|n IH]; [reflexivity | exact IH].
Qed.

Lemma skip_ws_indent (level : nat) (c : ascii) (s : str) :
  is_ws c = false -> skip_ws (newline_indent level ++ c :: s) = c :: s.
Proof.
  intros Hc. unfold skip_ws.
  rewrite lstrip_by_app_all by apply newline_indent_ws.
  simpl. now rewrite Hc.
Qed.

Lemma skip_ws_visible (c : ascii) (s : str) :
  is_ws c = false -> skip_ws (c :: s) = c :: s.
Proof. intros Hc. unfold skip_ws. simpl. now rewrite Hc. Qed.

Lemma value_start_facts (c : ascii) :
  value_start c = true ->
  is_ws c = false /\ Ascii.eqb c "]"%char = false
  /\ Ascii.eqb c "}"%char = false.
Proof.
  destruct c as [[] [] [] [] [] [] [] []]; intros H;
    try discriminate H; repeat split.
Qed.

Lemma number_start_facts (c : ascii) :
  is_digit c = true \/ c = "-"%char ->
  value_start c = true /\ Ascii.eqb c quote = false
  /\ Ascii.eqb c "{"%char = false /\ Ascii.eqb c "["%char = false.
Proof.
  destruct c as [[] [] [] [] [] [] [] []]; intros [H|H];
    try discriminate H; repeat split.
Qed.

Lemma parse_atom_number (ft : float_text) (c : ascii) (t : str) :
  is_digit c = true \/ c = "-"%char ->
  parse_atom ft (c :: t) = parse_number ft (c :: t).
Proof.
  destruct c as [[] [] [] [] [] [] [] []]; intros [H|H];
    try discriminate H; reflexivity.
Qed.

Lemma lex_integer_head (s i s1 : str) :
  lex_integer s = Some (i, s1) ->
  exists c t, s = c :: t /\ (is_digit c = true \/ c = "-"%char).
Proof.
  unfold lex_integer. destruct s as [|c s]; [discriminate|].
  intros H. exists c, s. split; [reflexivity|].
  destruct (Ascii.eqb c "-"%char) eqn:Hm.
  - right. now apply Ascii.eqb_eq.
  - left. destruct (Ascii.eqb c "0"%char) eqn:H0.
    + apply Ascii.eqb_eq in H0. now subst c.
    + destruct (is_digit c); [reflexivity | discriminate].
Qed.

Lemma float_repr_head (ft : float_text) (x : float) :
  printable_float ft x ->
  exists c t, float_repr ft x = c :: t /\ (is_digit c = true \/ c = "-"%char).
Proof.
  intros [Hshape _]. unfold float_shaped, lex_number in Hshape.
  destruct (lex_integer (float_repr ft x)) as [[i s1]|] eqn:Hi; [|discriminate].
  eapply lex_integer_head, Hi.
Qed.

(** Every written value begins with a visible character that opens a
    value. *)
Lemma dumps_at_head (ft : float_text) (level : nat) (v : json) :
  printable ft v ->
  exists c t, dumps_at ft level v = c :: t /\ value_start c = true.
Proof.
  intros Hp. destruct v as [ | [] | x | s | [|e elems] | [|m members]];
    try (eexists _, _; split; [reflexivity | reflexivity]).
  inversion Hp as [ | | x' Hx | | | ]; subst.
  destruct (float_repr_head ft x Hx) as (c & t & Hc & Hstart).
  exists c, t. split; [exact Hc|]. now apply number_start_facts.
Qed.

(** *** Dictionaries *)

Lemma dict_set_fresh (d : list (str * json)) (k : str) (v : json) :
  ~ In k (map fst d) -> dict_set d k v = d ++ [(k, v)].
Proof.
  induction d as [|[k' w] d IH]; simpl; intros Hk; [reflexivity|].
  rewrite bool_decide_eq_false_2 by tauto.
  rewrite IH by tauto. reflexivity.
Qed.

Lemma fold_dict_set (d acc : list (str * json)) :
  NoDup (map fst (acc ++ d)) ->
  fold_left (fun d kv => dict_set d (fst kv) (snd kv)) d acc = acc ++ d.
Proof.
  revert acc. induction d as [|[k v] d IH]; intros acc Hnd; simpl.
  - now rewrite app_nil_r.
  - rewrite dict_set_fresh.
    + rewrite IH; rewrite <- app_assoc; [reflexivity | exact Hnd].
    + rewrite map_app in Hnd. simpl in Hnd.
      apply NoDup_app in Hnd as (_ & Hdisj & _). intros Hin.
      apply list_elem_of_In in Hin. apply (Hdisj k Hin). constructor.
Qed.

Lemma dict_of_pairs_nodup (d : list (str * json)) :
  NoDup (map fst d) -> dict_of_pairs d = d.
Proof. intros H. unfold dict_of_pairs. now rewrite fold_dict_set. Qed.

(** *** Induction over nested values *)

Lemma json_nested_ind (P : json -> Prop) :
  P JNull -> (forall b, P (JBool b)) -> (forall x, P (JNumber x)) ->
  (forall s, P (JString s)) ->
  (forall elems, Forall P elems -> P (JArray elems)) ->
  (forall members, Forall (fun kv => P (snd kv)) members ->
                   P (JObject members)) ->
  forall v, P v.
Proof.
  intros Hnull Hbool Hnum Hstr Harr Hobj.
  fix IH 1. intros [ | b | x | s | elems | members].
  - exact Hnull.
  - apply Hbool.
  - apply Hnum.
  - apply Hstr.
  - apply Harr. induction elems as [|e elems IHl]; constructor;
      [apply IH | exact IHl].
  - apply Hobj. induction members as [|[k e] members IHl]; constructor;
      [apply IH | exact IHl].
Qed.

(** *** Unfolding the scanner *)

Lemma parse_value_string (ft : float_text) (fuel : nat) (s : str) :
  parse_value ft (S fuel) (quote :: s)
  = match scanstring s with
    | Some (text, r) => Some (JString text, r)
    | None => None
    end.
Proof. reflexivity. Qed.

Lemma parse_value_array (ft : float_text) (fuel : nat) (s : str) :
  parse_value ft (S fuel) ("["%char :: s)
  = match skip_ws s with
    | d :: r =>
        if Ascii.eqb d "]"%char then Some (JArray [], r)
        else
          match parse_elems ft fuel (d :: r) with
          | Some (elems, r') => Some (JArray elems, r')
          | None => None
          end
    | [] => None
    end.
Proof. reflexivity. Qed.

Lemma parse_value_object (ft : float_text) (fuel : nat) (s : str) :
  parse_value ft (S fuel) ("{"%char :: s)
  = match skip_ws s with
    | d :: r =>
        if Ascii.eqb d "}"%char then Some (JObject [], r)
        else if Ascii.eqb d quote then
          match parse_members ft fuel r with
          | Some (pairs, r') => Some (JObject (dict_of_pairs pairs), r')
          | None => None
          end
        else None
    | [] => None
    end.
Proof. reflexivity. Qed.

Lemma parse_value_number (ft : float_text) (fuel : nat) (c : ascii) (s : str) :
  is_digit c = true \/ c = "-"%char ->
  parse_value ft (S fuel) (c :: s) = parse_number ft (c :: s).
Proof.
  intros Hc. rewrite <- (parse_atom_number ft c s Hc).
  destruct (number_start_facts c Hc) as (_ & Hq & Ho & Ha).
  cbn [parse_value]. now rewrite Hq, Ho, Ha.
Qed.

Lemma parse_elems_S (ft : float_text) (fuel : nat) (s : str) :
  parse_elems ft (S fuel) s
  = match parse_value ft fuel s with
    | None => None
    | Some (v, r) =>
        match skip_ws r with
        | d :: r' =>
            if Ascii.eqb d "]"%char then Some ([v], r')
            else if Ascii.eqb d ","%char then
              match parse_elems ft fuel (skip_ws r') with
              | Some (vs, r'') => Some (v :: vs, r'')
              | None => None
              end
            else None
        | [] => None
        end
    end.
Proof. reflexivity. Qed.

Lemma parse_members_S (ft : float_text) (fuel : nat) (s : str) :
  parse_members ft (S fuel) s
  = match scanstring s with
    | None => None
    | Some (key, r) =>
        match skip_ws r with
        | colon :: r1 =>
            if Ascii.eqb colon ":"%char then
              match parse_value ft fuel (skip_ws r1) with
              | None => None
              | Some (v, r2) =>
                  match skip_ws r2 with
                  | d :: r3 =>
                      if Ascii.eqb d "}"%char then Some ([(key, v)], r3)
                      else if Ascii.eqb d ","%char then
                        match skip_ws r3 with
                        | q :: r4 =>
                            if Ascii.eqb q quote then
                              match parse_members ft fuel r4 with
                              | Some (kvs, r5) => Some ((key, v) :: kvs, r5)
                              | None => None
                              end
                            else None
                        | [] => None
                        end
                      else None
                  | [] => None
                  end
              end
            else None
        | [] => None
        end
    end.
Proof. reflexivity. Qed.

Lemma dump_items_more {A : Type} (dump : A -> str) (level : nat)
    (first second : A) (more : list A) :
  dump_items dump level (first :: second :: more)
  = dump first
    ++ ","%char :: newline_indent level ++ dump_items dump level (second :: more).
Proof.
  unfold dump_items. cbn [map concat].
  now rewrite <- app_comm_cons, <- app_assoc.
Qed.

Lemma dump_items_one {A : Type} (dump : A -> str) (level : nat) (first : A) :
  dump_items dump level [first] = dump first.
Proof. unfold dump_items. cbn [map concat]. apply app_nil_r. Qed.

(** *** Lists and dictionaries are read back item by item *)

Lemma dump_items_head {A : Type} (dump : A -> str) (level : nat)
    (first : A) (others : list A) (c : ascii) (t : str) :
  dump first = c :: t ->
  exists t', dump_items dump level (first :: others) = c :: t'.
Proof.
  intros H. unfold dump_items. rewrite H. eexists. reflexivity.
Qed.

Lemma dump_items_length {A : Type} (dump : A -> str) (level : nat)
    (first second : A) (more : list A) :
  length (dump first) + length (dump_items dump level (second :: more)) + 2
  <= length (dump_items dump level (first :: second :: more)).
Proof.
  rewrite dump_items_more, length_app. cbn [length].
  rewrite length_app. unfold newline_indent. cbn [length]. lia.
Qed.

Lemma parse_elems_items (ft : float_text) (level : nat) (r : str) :
  forall (others : list json) (first : json) (fuel : nat),
    Forall (fun e => printable ft e /\ reads_back ft e) (first :: others) ->
    length (dump_items (dumps_at ft (S level)) (S level) (first :: others)) + 1
    < fuel ->
    parse_elems ft fuel
      (dump_items (dumps_at ft (S level)) (S level) (first :: others)
       ++ newline_indent level ++ "]"%char :: r)
    = Some (first :: others, r).
Proof.
  induction others as [|second more IH]; intros first fuel Hall Hfuel;
    (destruct fuel as [|fuel]; [lia|]); rewrite parse_elems_S;
    inversion Hall as [|? ? [Hp Hrb] Hrest]; subst.
  - rewrite dump_items_one in *.
    rewrite Hrb; [| reflexivity | lia].
    rewrite skip_ws_indent by reflexivity. reflexivity.
  - pose proof (dump_items_length (dumps_at ft (S level)) (S level)
                  first second more) as Hlen.
    rewrite dump_items_more, <- app_assoc, <- app_comm_cons, <- app_assoc.
    rewrite Hrb; [| reflexivity | lia].
    rewrite skip_ws_visible by reflexivity.
    change (Ascii.eqb ","%char "]"%char) with false.
    change (Ascii.eqb ","%char ","%char) with true. cbv iota.
    inversion Hrest as [|? ? [Hp2 _] _]; subst.
    destruct (dumps_at_head ft (S level) second Hp2) as (c & t & Hc & Hstart).
    destruct (dump_items_head (dumps_at ft (S level)) (S level) second more
                c t Hc) as [t' Hhead].
    destruct (value_start_facts c Hstart) as (Hws & _).
    assert (Hskip : forall tail,
      skip_ws (newline_indent (S level)
               ++ dump_items (dumps_at ft (S level)) (S level) (second :: more)
               ++ tail)
      = dump_items (dumps_at ft (S level)) (S level) (second :: more) ++ tail).
    { intros tail. rewrite Hhead. cbn [app].
      now apply skip_ws_indent. }
    rewrite Hskip, IH; [reflexivity | exact Hrest | lia].
Qed.

Lemma encode_basestring_app (k tail : str) :
  encode_basestring k ++ tail
  = quote :: concat (map escape_char k) ++ quote :: tail.
Proof.
  unfold encode_basestring. cbn [app]. now rewrite <- app_assoc.
Qed.

Lemma skip_ws_space_value (ft : float_text) (level : nat) (v : json)
    (tail : str) :
  printable ft v ->
  skip_ws (" "%char :: dumps_at ft level v ++ tail) = dumps_at ft level v ++ tail.
Proof.
  intros Hp.
  destruct (dumps_at_head ft level v Hp) as (c & t & Hc & Hstart).
  destruct (value_start_facts c Hstart) as (Hws & _).
  rewrite Hc. unfold skip_ws. cbn [app Str.lstrip_by].
  change (is_ws " "%char) with true. cbv iota. now rewrite Hws.
Qed.

Lemma parse_members_items (ft : float_text) (level : nat) (r : str) :
  forall (others : list (str * json)) (first : str * json) (fuel : nat)
         (text : str),
    Forall (fun kv => printable ft (snd kv) /\ reads_back ft (snd kv))
      (first :: others) ->
    length (dump_items (dump_member ft (S level)) (S level) (first :: others)) + 1
    < fuel ->
    quote :: text
    = dump_items (dump_member ft (S level)) (S level) (first :: others)
      ++ newline_indent level ++ "}"%char :: r ->
    parse_members ft fuel text = Some (first :: others, r).
Proof.
  induction others as [|second more IH]; intros [k v] fuel text Hall Hfuel Htext;
    (destruct fuel as [|fuel]; [lia|]); rewrite parse_members_S;
    inversion Hall as [|? ? [Hp Hrb] Hrest]; subst;
    cbn [snd] in Hp, Hrb.
  - rewrite dump_items_one in *. unfold dump_member in Htext, Hfuel.
    cbn [fst snd] in Htext, Hfuel.
    rewrite <- !app_assoc, encode_basestring_app in Htext.
    match type of Htext with
    | _ = quote :: ?X => assert (Ht : text = X) by congruence
    end.
    rewrite Ht. clear Ht Htext.
    rewrite scanstring_encode. cbn [list_ascii_of_string app].
    rewrite skip_ws_visible by reflexivity.
    change (Ascii.eqb ":"%char ":"%char) with true. cbv iota.
    rewrite skip_ws_space_value by exact Hp.
    rewrite Hrb; [| reflexivity |].
    + rewrite skip_ws_indent by reflexivity. reflexivity.
    + rewrite !length_app in Hfuel. lia.
  - pose proof (dump_items_length (dump_member ft (S level)) (S level)
                  (k, v) second more) as Hlen.
    rewrite dump_items_more in Htext.
    unfold dump_member at 1 in Htext. unfold dump_member at 1 in Hlen.
    cbn [fst snd] in Htext, Hlen.
    rewrite <- !app_assoc, encode_basestring_app in Htext.
    match type of Htext with
    | _ = quote :: ?X => assert (Ht : text = X) by congruence
    end.
    rewrite Ht. clear Ht Htext.
    rewrite scanstring_encode. cbn [list_ascii_of_string app].
    rewrite skip_ws_visible by reflexivity.
    change (Ascii.eqb ":"%char ":"%char) with true. cbv iota.
    rewrite skip_ws_space_value by exact Hp.
    rewrite Hrb; [| reflexivity |].
    + rewrite skip_ws_visible by reflexivity.
      change (Ascii.eqb ","%char "}"%char) with false.
      change (Ascii.eqb ","%char ","%char) with true. cbv iota.
      destruct second as [k2 v2].
      assert (Hquote : exists text2,
        dump_items (dump_member ft (S level)) (S level) ((k2, v2) :: more)
        = quote :: text2).
      { eapply dump_items_head. unfold dump_member, encode_basestring.
        cbn [fst app]. reflexivity. }
      destruct Hquote as [text2 Hq].
      assert (Hskip :
        skip_ws (newline_indent (S level)
                 ++ dump_items (dump_member ft (S level)) (S level)
                      ((k2, v2) :: more)
                 ++ newline_indent level ++ "}"%char :: r)
        = quote :: text2 ++ newline_indent level ++ "}"%char :: r).
      { rewrite Hq. cbn [app]. now apply skip_ws_indent. }
      rewrite <- app_assoc, Hskip.
      change (Ascii.eqb quote quote) with true. cbv iota.
      rewrite (IH (k2, v2) fuel (text2 ++ newline_indent level ++ "}"%char :: r));
        [reflexivity | exact Hrest | lia |].
      now rewrite Hq.
    + rewrite !length_app in Hlen. lia.
Qed.

(** *** Every printable value is read back *)

Lemma Forall_printable_reads_back (ft : float_text) {A : Type}
    (proj : A -> json) (l : list A) :
  Forall (fun a => printable ft (proj a) -> reads_back ft (proj a)) l ->
  Forall (fun a => printable ft (proj a)) l ->
  Forall (fun a => printable ft (proj a) /\ reads_back ft (proj a)) l.
Proof.
  induction 1 as [|a l Ha _ IH]; intros Hp; constructor;
    inversion Hp; subst; auto.
Qed.

Lemma printable_reads_back (ft : float_text) (v : json) :
  printable ft v -> reads_back ft v.
Proof.
  induction v as [ | b | x | s | elems IH | members IH ] using json_nested_ind;
    intros Hp level r fuel Hr Hfuel;
    (destruct fuel as [|fuel]; [lia|]).
  - reflexivity.
  - destruct b; reflexivity.
  - inversion Hp as [ | | x' Hx | | | ]; subst.
    destruct (float_repr_head ft x Hx) as (c & t & Hc & Hd).
    cbn [dumps_at]. rewrite Hc, <- app_comm_cons.
    rewrite parse_value_number by exact Hd.
    rewrite app_comm_cons, <- Hc. now apply parse_number_repr.
  - cbn [dumps_at]. rewrite encode_basestring_app.
    rewrite parse_value_string, scanstring_encode. reflexivity.
  - inversion Hp as [ | | | | elems' Hall | ]; subst.
    pose proof (Forall_printable_reads_back ft (fun e => e) elems IH Hall) as Hboth.
    destruct elems as [|first others]; [reflexivity|].
    cbn [dumps_at] in *.
    rewrite <- app_comm_cons, <- !app_assoc. cbn [app].
    rewrite parse_value_array.
    inversion Hall as [|? ? Hp1 _]; subst.
    destruct (dumps_at_head ft (S level) first Hp1) as (c & t & Hc & Hstart).
    destruct (dump_items_head (dumps_at ft (S level)) (S level) first others
                c t Hc) as [t' Hhead].
    destruct (value_start_facts c Hstart) as (Hws & Hclose & _).
    assert (Hskip : forall tail,
      skip_ws (newline_indent (S level)
               ++ dump_items (dumps_at ft (S level)) (S level) (first :: others)
               ++ tail)
      = c :: t' ++ tail).
    { intros tail. rewrite Hhead. cbn [app]. now apply skip_ws_indent. }
    rewrite Hskip, Hclose.
    rewrite app_comm_cons, <- Hhead.
    rewrite parse_elems_items; [reflexivity | exact Hboth |].
    cbn [length] in Hfuel. rewrite !length_app in Hfuel.
    cbn [length] in Hfuel. lia.
  - inversion Hp as [ | | | | | members' Hnd Hall ]; subst.
    pose proof (Forall_printable_reads_back ft snd members IH Hall) as Hboth.
    destruct members as [|[k v] others]; [reflexivity|].
    change (dumps_at ft level (JObject ((k, v) :: others)))
      with ("{"%char :: newline_indent (S level)
            ++ dump_items (dump_member ft (S level)) (S level) ((k, v) :: others)
            ++ newline_indent level ++ ["}"%char]) in *.
    rewrite <- app_comm_cons, <- !app_assoc. cbn [app].
    rewrite parse_value_object.
    assert (Hquote : exists text,
      dump_items (dump_member ft (S level)) (S level) ((k, v) :: others)
      = quote :: text).
    { eapply dump_items_head. unfold dump_member, encode_basestring.
      cbn [fst app]. reflexivity. }
    destruct Hquote as [text Hq].
    assert (Hskip : forall tail,
      skip_ws (newline_indent (S level)
               ++ dump_items (dump_member ft (S level)) (S level)
                    ((k, v) :: others)
               ++ tail)
      = quote :: text ++ tail).
    { intros tail. rewrite Hq. cbn [app]. now apply skip_ws_indent. }
    rewrite Hskip.
    change (Ascii.eqb quote "}"%char) with false.
    change (Ascii.eqb quote quote) with true. cbv iota.
    rewrite (parse_members_items ft level r others (k, v) fuel);
      [ now rewrite dict_of_pairs_nodup | exact Hboth | | now rewrite Hq ].
    cbn [length] in Hfuel. rewrite !length_app in Hfuel.
    cbn [length] in Hfuel. lia.
Qed.

(** [json.loads] returns the value that [json.dumps] wrote, the trailing
    new line of [save_memory] included. *)
Lemma loads_dumps (ft : float_text) (v : json) :
  printable ft v -> loads ft (dumps ft v ++ newline) = Some v.
Proof.
  intros Hp. unfold loads, dumps.
  destruct (dumps_at_head ft 0 v Hp) as (c & t & Hc & Hstart).
  destruct (value_start_facts c Hstart) as (Hws & _).
  assert (Hskip : skip_ws (dumps_at ft 0 v ++ newline) = dumps_at ft 0 v ++ newline).
  { rewrite Hc. cbn [app]. now apply skip_ws_visible. }
  rewrite Hskip.
  rewrite (printable_reads_back ft v Hp 0 newline); [reflexivity | reflexivity |].
  rewrite length_app. lia.
Qed.

End JsonLemmas.

(* ===================================================================== *)
(** ** Persisting and reloading facts *)
(* ===================================================================== *)

Lemma strs_of_json_map (l : list str) : strs_of_json (map JString l) = Some l.
Proof.
  induction l as [|s l IH]; [reflexivity|]. simpl. now rewrite IH.
Qed.

Lemma dict_get_here {V : Type} (k : str) (v : V) (d : list (str * V)) (def : V) :
  dict_get ((k, v) :: d) k def = v.
Proof. simpl. now rewrite bool_decide_eq_true_2. Qed.

Lemma dict_get_skip {V : Type} (k' k : str) (v : V) (d : list (str * V))
    (def : V) :
  k' <> k -> dict_get ((k', v) :: d) k def = dict_get d k def.
Proof. intros H. simpl. now rewrite bool_decide_eq_false_2. Qed.

Ltac distinct_keys :=
  let H := fresh in intro H; vm_compute in H; discriminate H.

Ltac read_key :=
  repeat match goal with
    | |- context [dict_get ((?k, ?v) :: ?d) ?k ?def] =>
        rewrite (dict_get_here k v d def)
    | |- context [dict_get ((?k', ?v) :: ?d) ?k ?def] =>
        rewrite (dict_get_skip k' k v d def) by distinct_keys
    end.

(** The record read from the dictionary of a fact is that fact. *)
Lemma fact_of_json_of_fact (f : fact) : fact_of_json (json_of_fact f) = Some f.
Proof.
  destruct f as [i s v p c a n ts del da m].
  unfold fact_of_json, json_of_fact, get_str.
  cbn [fid subject value provenance confidence added_at notes tags deleted
         deleted_at metadata].
  destruct da as [t|]; cbn [app]; read_key;
    rewrite strs_of_json_map; destruct n; reflexivity.
Qed.

Lemma facts_of_jsons_map (items : list fact) :
  facts_of_jsons (map json_of_fact items) = Some items.
Proof.
  induction items as [|f items IH]; [reflexivity|].
  cbn [map facts_of_jsons]. now rewrite fact_of_json_of_fact, IH.
Qed.

Lemma printable_strings (ft : float_text) (l : list str) :
  Forall (printable ft) (map JString l).
Proof. induction l; constructor; [constructor | assumption]. Qed.

Lemma printable_fact (ft : float_text) (f : fact) :
  storable ft f -> printable ft (json_of_fact f).
Proof.
  intros [Hc Hm]. unfold json_of_fact. constructor.
  - destruct (deleted_at f); cbn [app map fst];
      apply (bool_decide_unpack (NoDup _)); vm_compute; exact I.
  - repeat (apply Forall_cons; split; cbn [snd];
            [first [ exact Hm
                   | constructor; first [exact Hc | apply printable_strings]
                   | destruct (notes f); constructor ] |]).
    destruct (deleted_at f); repeat constructor.
Qed.

Lemma printable_facts (ft : float_text) (items : list fact) :
  Forall (storable ft) items -> printable ft (json_of_facts items).
Proof.
  intros Hall. unfold json_of_facts. constructor.
  - apply (bool_decide_unpack (NoDup _)). vm_compute. exact I.
  - repeat constructor. cbn [snd].
    induction Hall as [|f items Hf _ IH]; constructor;
      [now apply printable_fact | exact IH].
Qed.




(* ===================================================================== *)
(** ** The stores, operation by operation *)
(* ===================================================================== *)

(** X1: [remember_preference] is an upsert.  The entry it returns, with the
    given opinion and the current time, is what a lookup of the pair
    (category, item) finds afterwards, whatever was there before; every
    other pair, the facts and the files are untouched. *)
Theorem remember_preference_upsert (cat it op : str) (self : AxonAgent) :
  let '(entry, self') := remember_preference cat it op self in
  entry = mkPref op (clock self (ticks self))
  /\ pref_lookup (preferences (memory self')) cat it = Some entry
  /\ (forall cat' it',
         (cat', it') <> (cat, it) ->
         pref_lookup (preferences (memory self')) cat' it'
         = pref_lookup (preferences (memory self)) cat' it')
  /\ facts (memory self') = facts (memory self)
  /\ paths self' = paths self.
Proof.
  unfold remember_preference, bind, ret, _now, get_memory, set_memory.
  cbn [memory preferences facts paths fst snd].
  repeat split.
  - unfold pref_lookup. rewrite lookup_insert_eq. cbn.
    now rewrite lookup_insert_eq.
  - intros cat' it' Hne. unfold pref_lookup.
    destruct (decide (cat = cat')) as [<-|Hc].
    + rewrite lookup_insert_eq. cbn.
      rewrite lookup_insert_ne by congruence.
      destruct (preferences (memory self) !! cat); cbn;
        [reflexivity | apply lookup_empty].
    + now rewrite lookup_insert_ne.
Qed.

Lemma strip_not_blank (query : str) :
  blank query = false -> Str.strip query <> [].
Proof.
  unfold blank, Str.strip, Str.strip_by. intros Hb Hs.
  assert (Hl : Str.lstrip_by Str.isspace query <> []).
  { clear Hs. induction query as [|c q IH]; [discriminate|].
    simpl in *. destruct (Str.isspace c); [auto | discriminate]. }
  pose proof (lstrip_by_starts_ok Str.isspace query) as Hst.
  destruct (Str.lstrip_by Str.isspace query) as [|c l]; [contradiction|].
  simpl in Hst. apply negb_true_iff in Hst.
  unfold Str.rstrip_by in Hs. simpl rev in Hs.
  rewrite lstrip_by_app_keep in Hs by exact Hst.
  apply (f_equal (@length ascii)) in Hs.
  rewrite length_rev, length_app in Hs. simpl in Hs. lia.
Qed.

Lemma forget_loop_spec (query : str) (items : list fact) :
  forall (count : nat) (self : AxonAgent),
    let '((items', count'), self') := forget_loop query items count self in
    count' = count + length (List.filter (hit query) items)
    /\ Forall2 (forgotten query) items items'
    /\ ticks self' = ticks self + length (List.filter (hit query) items)
    /\ memory self' = memory self.
Proof.
  induction items as [|f rest IH]; intros count self.
  - cbn. repeat split; [lia | constructor | lia].
  - cbn [forget_loop List.filter].
    destruct (deleted f) eqn:Hd.
    + assert (Hh : hit query f = false) by (unfold hit; now rewrite Hd).
      rewrite Hh. unfold bind. specialize (IH count self).
      destruct (forget_loop query rest count self) as [[items' n] self'].
      destruct IH as (Hn & Hall & Ht & Hm). cbn [ret fst snd].
      repeat split; try assumption.
      constructor; [now left | exact Hall].
    + destruct (Str.contains (Str.lower query) (Str.lower (subject f))) eqn:Hc.
      * assert (Hh : hit query f = true) by (unfold hit; now rewrite Hd, Hc).
        rewrite Hh. unfold bind at 1. unfold _now at 1. unfold bind.
        match goal with
        | |- context [forget_loop query rest ?c ?s] =>
            specialize (IH c s); destruct (forget_loop query rest c s)
              as [[items' n] self']
        end.
        destruct IH as (Hn & Hall & Ht & Hm).
        cbn [ret fst snd ticks memory length] in *.
        repeat split; [lia | | lia | exact Hm].
        constructor; [|exact Hall]. right.
        split; [exact Hh|]. eexists. reflexivity.
      * assert (Hh : hit query f = false) by (unfold hit; now rewrite Hd, Hc).
        rewrite Hh. unfold bind. specialize (IH count self).
        destruct (forget_loop query rest count self) as [[items' n] self'].
        destruct IH as (Hn & Hall & Ht & Hm). cbn [ret fst snd].
        repeat split; try assumption.
        constructor; [now left | exact Hall].
Qed.

(** What [forget_fact] does to memory on a query that is not blank. *)
Lemma forget_fact_effect (query : str) (self : AxonAgent) :
  blank query = false ->
  let '(count, self') := forget_fact query self in
  count = length (List.filter (hit query) (facts (memory self)))
  /\ Forall2 (forgotten query) (facts (memory self)) (facts (memory self'))
  /\ preferences (memory self') = preferences (memory self).
Proof.
  intros Hb. apply strip_not_blank in Hb.
  unfold forget_fact. destruct (Str.strip query) as [|c q]; [contradiction|].
  unfold bind, get_memory, ret.
  pose proof (forget_loop_spec query (facts (memory self)) 0 self) as H.
  destruct (forget_loop query (facts (memory self)) 0 self)
    as [[items' n] self'].
  destruct H as (Hn & Hall & _ & Hm).
  cbn [set_memory fst snd memory facts preferences].
  repeat split; first [assumption | lia].
Qed.

(** X2: [forget_fact] on a query that is not blank returns the number of
    facts that were not deleted and whose subject contains the query,
    letter case ignored.  It removes no fact: the store keeps its length
    and order, a fact that was hit gets [deleted] and a [deleted_at] and
    nothing else changed, every other fact is left as it was.  Preferences
    and files are untouched, and the clock was read once per hit. *)
Theorem forget_fact_spec (query : str) (self : AxonAgent) :
  blank query = false ->
  let '(count, self') := forget_fact query self in
  count = length (List.filter (hit query) (facts (memory self)))
  /\ Forall2 (forgotten query) (facts (memory self)) (facts (memory self'))
  /\ length (facts (memory self')) = length (facts (memory self))
  /\ preferences (memory self') = preferences (memory self)
  /\ paths self' = paths self
  /\ ticks self' = ticks self + count.
Proof.
  intros Hb. apply strip_not_blank in Hb.
  unfold forget_fact. destruct (Str.strip query) as [|c q]; [contradiction|].
  unfold bind, get_memory, ret.
  pose proof (forget_loop_spec query (facts (memory self)) 0 self) as H.
  pose proof (forget_loop_world query (facts (memory self)) 0 self) as Hw.
  destruct (forget_loop query (facts (memory self)) 0 self)
    as [[items' n] self'].
  destruct H as (Hn & Hall & Ht & Hm). destruct Hw as (Hp & _).
  cbn [set_memory fst snd memory facts preferences paths ticks].
  repeat split;
    first [ assumption | lia
          | symmetry; eapply Forall2_length; exact Hall ].
Qed.

(** An instance: forgetting "par" in a store with the Paris fact. *)
Lemma forget_fact_spec_witness :
  let self :=
    mkAgent (paths paris_agent) (mkMemory (facts_file (paths paris_agent)) ∅)
      [] (clock paris_agent) 0 (uuid4 paris_agent) 0 in
  let '(count, self') := forget_fact $"par" self in
  count = length (List.filter (hit $"par") (facts (memory self)))
  /\ Forall2 (forgotten $"par") (facts (memory self)) (facts (memory self'))
  /\ length (facts (memory self')) = length (facts (memory self))
  /\ preferences (memory self') = preferences (memory self)
  /\ paths self' = paths self
  /\ ticks self' = ticks self + count.
Proof.
  apply (forget_fact_spec $"par"
           (mkAgent (paths paris_agent)
              (mkMemory (facts_file (paths paris_agent)) ∅)
              [] (clock paris_agent) 0 (uuid4 paris_agent) 0)).
  reflexivity.
Defined.

Lemma filter_after_forget (query query' : str) (items items' : list fact) :
  Forall2 (forgotten query) items items' ->
  List.filter (matches_query query') items'
  = List.filter
      (fun f => negb (Str.contains (Str.lower query) (Str.lower (subject f))))
      (List.filter (matches_query query') items).
Proof.
  induction 1 as [|f f' items items' Hf _ IH]; [reflexivity|].
  cbn [List.filter]. rewrite IH.
  destruct Hf as [[Hhit ->] | [Hhit [now ->]]].
  - destruct (matches_query query' f) eqn:Hm; [|reflexivity].
    cbn [List.filter].
    assert (Hc : Str.contains (Str.lower query) (Str.lower (subject f)) = false).
    { unfold hit in Hhit. unfold matches_query in Hm.
      destruct (deleted f); [discriminate|]. exact Hhit. }
    now rewrite Hc.
  - unfold hit in Hhit. apply andb_true_iff in Hhit as [Hd Hc].
    unfold matches_query at 1. cbn [deleted mark_deleted negb andb].
    destruct (matches_query query' f); [|reflexivity].
    cbn [List.filter]. now rewrite Hc.
Qed.

(** X3: what is forgotten is never found again.  After [forget_fact query]
    with a query that is not blank, [_find_matching_facts] returns, for any
    query, what it returned before without the facts whose subject contains
    the forgotten query; the facts that remain are returned unchanged. *)
Theorem forget_then_find (query query' : str) (self : AxonAgent) :
  blank query = false ->
  let '(_, self') := forget_fact query self in
  _find_matching_facts (memory self') query'
  = List.filter
      (fun f => negb (Str.contains (Str.lower query) (Str.lower (subject f))))
      (_find_matching_facts (memory self) query').
Proof.
  intros Hb. pose proof (forget_fact_effect query self Hb) as H.
  destruct (forget_fact query self) as [count self'].
  destruct H as (_ & Hall & _).
  unfold _find_matching_facts. rewrite !find_loop_filter, !app_nil_l.
  now apply filter_after_forget.
Qed.

(** An instance: after "par" is forgotten, "Paris" finds nothing. *)
Lemma forget_then_find_witness :
  let self :=
    mkAgent (paths paris_agent) (mkMemory (facts_file (paths paris_agent)) ∅)
      [] (clock paris_agent) 0 (uuid4 paris_agent) 0 in
  let '(_, self') := forget_fact $"par" self in
  _find_matching_facts (memory self') $"Paris"
  = List.filter
      (fun f => negb (Str.contains (Str.lower $"par") (Str.lower (subject f))))
      (_find_matching_facts (memory self) $"Paris").
Proof.
  apply (forget_then_find $"par" $"Paris"
           (mkAgent (paths paris_agent)
              (mkMemory (facts_file (paths paris_agent)) ∅)
              [] (clock paris_agent) 0 (uuid4 paris_agent) 0)).
  reflexivity.
Defined.

Lemma contains_nil (s : str) : Str.contains [] s = true.
Proof. destruct s; reflexivity. Qed.

Lemma contains_refl (s : str) : Str.contains s s = true.
Proof. apply contains_iff. exists [], []. now rewrite app_nil_r. Qed.

Lemma contains_in_nil (k : str) : Str.contains k [] = true -> k = [].
Proof. destruct k; [reflexivity | discriminate]. Qed.

Lemma find_matching_In (mem : Memory) (query : str) (f : fact) :
  In f (_find_matching_facts mem query)
  <-> In f (facts mem) /\ matches_query query f = true.
Proof.
  unfold _find_matching_facts. rewrite find_loop_filter, app_nil_l.
  apply filter_In.
Qed.

(** X4: the edges of the matcher.  The empty query returns every fact that
    is not deleted.  A fact that is not deleted is returned for its own
    subject in any letter case, and, when its subject is empty, for every
    query. *)
Theorem find_matching_edges (mem : Memory) :
  _find_matching_facts mem [] = List.filter (fun f => negb (deleted f)) (facts mem)
  /\ (forall (query : str) (f : fact),
         In f (facts mem) -> deleted f = false ->
         Str.lower query = Str.lower (subject f) ->
         In f (_find_matching_facts mem query))
  /\ (forall (query : str) (f : fact),
         In f (facts mem) -> deleted f = false -> subject f = [] ->
         In f (_find_matching_facts mem query)).
Proof.
  split; [|split].
  - unfold _find_matching_facts. rewrite find_loop_filter, app_nil_l.
    apply filter_ext. intros f. unfold matches_query.
    change (Str.lower []) with (@nil ascii).
    rewrite contains_nil. now destruct (deleted f).
  - intros query f Hin Hd Hq. apply find_matching_In. split; [exact Hin|].
    unfold matches_query. now rewrite Hd, Hq, contains_refl.
  - intros query f Hin Hd Hs. apply find_matching_In. split; [exact Hin|].
    unfold matches_query. rewrite Hd, Hs.
    change (Str.lower []) with (@nil ascii).
    now rewrite contains_nil, orb_true_r.
Qed.

(** An instance: "PARIS" finds the Paris fact, and a fact without subject
    is found by "Lyon". *)
Lemma find_matching_edges_witness :
  let nameless := stored_fact [] $"sans sujet" false in
  let mem := mkMemory [paris_fact; nameless] ∅ in
  In paris_fact (_find_matching_facts mem $"PARIS")
  /\ In nameless (_find_matching_facts mem $"Lyon").
Proof.
  destruct (find_matching_edges
              (mkMemory [paris_fact; stored_fact [] $"sans sujet" false] ∅))
    as (_ & Hown & Hempty).
  split.
  - apply Hown; [now left | reflexivity | reflexivity].
  - apply Hempty; [right; now left | reflexivity | reflexivity].
Defined.

(** X5: a fact remembered with a blank subject gets the empty subject; it
    is then returned for every query, and no call of [forget_fact] deletes
    it: a blank query is refused and no other query is contained in the
    empty subject. *)
Theorem blank_subject_fact
    (subj val prov : str) (conf : option float) (notes0 : option str)
    (tags0 : option (list str)) (metadata0 : option (list (str * json)))
    (self : AxonAgent) :
  blank subj = true ->
  let '(stored, self1) :=
    remember_fact subj val prov conf notes0 tags0 metadata0 self in
  subject stored = []
  /\ (forall query, In stored (_find_matching_facts (memory self1) query))
  /\ (forall query,
         let '(_, self2) := forget_fact query self1 in
         In stored (facts (memory self2))).
Proof.
  intros Hb.
  destruct (remember_fact subj val prov conf notes0 tags0 metadata0 self)
    as [stored self1] eqn:E.
  unfold remember_fact, bind, ret, uuid4_hex, _now, get_memory, set_memory in E.
  injection E as <- <-. cbn [subject memory facts].
  rewrite (strip_blank subj Hb).
  split; [reflexivity|]. split.
  - intros query. apply find_matching_In. cbn [facts]. split.
    + apply in_or_app. right. now left.
    + unfold matches_query. cbn [deleted subject negb andb].
      change (Str.lower []) with (@nil ascii).
      now rewrite contains_nil, orb_true_r.
  - intros query. destruct (blank query) eqn:Hq.
    + unfold forget_fact. rewrite (strip_blank query Hq).
      cbn [ret memory facts].
      apply in_or_app. right. now left.
    + match goal with
      | |- context [forget_fact query ?s] =>
          pose proof (forget_fact_effect query s Hq) as H;
          destruct (forget_fact query s) as [count self2]
      end.
      destruct H as (_ & Hall & _). cbn [memory facts] in Hall.
      apply Forall2_app_inv_l in Hall as (l1 & l2 & _ & H2 & ->).
      apply Forall2_cons_inv_l in H2 as (f' & l3 & Hf & _ & ->).
      apply in_or_app. right. left.
      destruct Hf as [[_ ->] | [Hhit _]]; [reflexivity|].
      exfalso. unfold hit in Hhit. cbn [deleted subject negb andb] in Hhit.
      apply contains_in_nil in Hhit.
      apply strip_not_blank in Hq. apply Hq.
      destruct query; [reflexivity | discriminate].
Qed.

(** An instance: a subject made of two spaces. *)
Lemma blank_subject_fact_witness :
  let '(stored, self1) :=
    remember_fact $"  " $"sans sujet" $"user" None None None None fresh_agent in
  subject stored = []
  /\ (forall query, In stored (_find_matching_facts (memory self1) query))
  /\ (forall query,
         let '(_, self2) := forget_fact query self1 in
         In stored (facts (memory self2))).
Proof.
  apply (blank_subject_fact $"  " $"sans sujet" $"user" None None None None
           fresh_agent).
  reflexivity.
Defined.

(* ===================================================================== *)
(** ** What a [respond] call may change *)
(* ===================================================================== *)

Lemma stripped_not_blank (x : str) :
  nonempty (Str.strip x) = true -> blank (Str.strip x) = false.
Proof.
  pose proof (strip_by_starts_ok Str.isspace x) as Hs.
  unfold Str.strip. destruct (Str.strip_by Str.isspace x) as [|c l];
    [discriminate|].
  intros _. simpl in *. apply negb_true_iff in Hs. now rewrite Hs.
Qed.

Lemma forgotten_kept (query : str) (f f' : fact) :
  forgotten query f f' -> kept f f'.
Proof.
  intros [[_ ->] | [Hhit Hnow]]; [now left | right].
  split; [|exact Hnow]. unfold hit in Hhit.
  now destruct (deleted f).
Qed.

Lemma Forall2_kept_refl (l : list fact) : Forall2 kept l l.
Proof. induction l; constructor; [now left | assumption]. Qed.

(** The effect on memory of each branch of the if/elif chain. *)
Lemma dispatch_effect (prompt0 : str) (self : AxonAgent) :
  let '((lines, actions, updates), s) := dispatch prompt0 self in
  (actions = [$"search_web"]
   /\ preferences (memory s) = preferences (memory self)
   /\ exists new, facts (memory s) = facts (memory self) ++ [new]
                  /\ updates = [$"fact:" ++ fid new]
                  /\ confidence new = 0.5%float
                  /\ metadata new
                     = [($"url", JNull);
                        ($"query", JString (_extract_query prompt0))])
  \/ (actions = [$"remember_fact"]
      /\ preferences (memory s) = preferences (memory self)
      /\ ((exists new, facts (memory s) = facts (memory self) ++ [new]
                       /\ updates = [$"fact:" ++ fid new]
                       /\ confidence new = 0.2%float
                       /\ metadata new = [])
          \/ (facts (memory s) = facts (memory self) /\ updates = [])))
  \/ (actions = [$"remember_preference"]
      /\ facts (memory s) = facts (memory self))
  \/ (actions = [$"forget_fact"]
      /\ preferences (memory s) = preferences (memory self)
      /\ Forall2 kept (facts (memory self)) (facts (memory s))
      /\ updates = [])
  \/ (actions = [$"answer"] /\ s = self /\ updates = []
      /\ (lines = [$"Je suis prêt à apprendre ou à répondre selon les instructions."]
          \/ lines = [$"Je n'ai aucun fait correspondant en mémoire."]
          \/ exists query,
               _find_matching_facts (memory self) query <> []
               /\ lines = answer_lines (_find_matching_facts (memory self) query))).
Proof.
  unfold dispatch.
  destruct (Str.any_in [$"cherche"; $"google"; $"web"] _).
  { unfold search_web, store_results, bind, remember_fact, bind, ret,
      uuid4_hex, _now, get_memory, set_memory.
    cbn [memory facts preferences fst snd].
    left. repeat split. eexists. repeat split. }
  destruct (Str.any_in [$"apprends que"; $"tiens sache que"] _).
  { destruct (_parse_fact_statement prompt0) as [data|].
    - unfold bind, remember_fact, bind, ret, uuid4_hex, _now, get_memory,
        set_memory.
      cbn [memory facts preferences fst snd].
      right; left. repeat split. left. eexists. repeat split.
    - unfold ret. right; left. repeat split. now right. }
  destruct (Str.any_in [$"mon avis"; $"j'aime"; $"je n'aime pas"] _).
  { destruct (_parse_preference_statement prompt0) as [p|].
    - unfold bind, remember_preference, bind, ret, _now, get_memory,
        set_memory.
      cbn [memory facts preferences fst snd].
      do 2 right; left. repeat split.
    - unfold ret. do 2 right; left. repeat split. }
  destruct (Str.contains $"oublie" _).
  { destruct (nonempty (Str.strip (_extract_after_keyword prompt0 $"oublie")))
      eqn:Hq; cbn [negb].
    - unfold bind.
      pose proof (forget_fact_effect _ self (stripped_not_blank _ Hq)) as H.
      destruct (forget_fact _ self) as [count s].
      destruct H as (_ & Hall & Hp).
      assert (Hk : Forall2 kept (facts (memory self)) (facts (memory s))).
      { eapply Forall2_impl; [exact Hall|]. apply forgotten_kept. }
      destruct (negb (count =? 0)); unfold ret; do 3 right; left;
        repeat split; assumption.
    - unfold ret. do 3 right; left. repeat split. apply Forall2_kept_refl. }
  destruct (_extract_question_subject prompt0) as [[|c q]|].
  - unfold ret. do 4 right. repeat split. now left.
  - unfold bind, get_memory.
    destruct (_find_matching_facts (memory self) (c :: q)) as [|f ms] eqn:E;
      unfold ret; do 4 right; repeat split.
    + right. now left.
    + right. right. exists (c :: q). rewrite E. split; [discriminate | reflexivity].
  - unfold ret. do 4 right. repeat split. now left.
Qed.

(** X6: no [respond] call removes, reorders or rewrites a stored fact.  The
    facts file afterwards holds the facts it held before, in the same
    order, each one as it was or soft-deleted if it was not, followed by at
    most one new fact. *)
Theorem respond_keeps_facts (prompt0 : str) (self : AxonAgent) :
  let '(_, self') := respond prompt0 self in
  exists old new : list fact,
    facts_file (paths self') = old ++ new
    /\ Forall2 kept (facts_file (paths self)) old
    /\ length new <= 1.
Proof.
  rewrite respond_unfold.
  pose proof (dispatch_effect prompt0 (loaded self)) as H.
  destruct (dispatch prompt0 (loaded self)) as [[[lines acts] upds] s].
  cbn [logged paths facts_file].
  change (facts_file (paths self)) with (facts (memory (loaded self))).
  destruct H as [(_ & _ & new & -> & _)
               | [(_ & _ & [(new & -> & _) | (-> & _)])
               | [(_ & ->)
               | [(_ & _ & Hk & _)
               | (_ & -> & _)]]]].
  - exists (facts (memory (loaded self))), [new].
    split; [reflexivity|]. split; [apply Forall2_kept_refl | simpl; lia].
  - exists (facts (memory (loaded self))), [new].
    split; [reflexivity|]. split; [apply Forall2_kept_refl | simpl; lia].
  - exists (facts (memory (loaded self))), [].
    rewrite app_nil_r. split; [reflexivity|].
    split; [apply Forall2_kept_refl | simpl; lia].
  - exists (facts (memory (loaded self))), [].
    rewrite app_nil_r. split; [reflexivity|].
    split; [apply Forall2_kept_refl | simpl; lia].
  - exists (facts (memory s)), []. rewrite app_nil_r.
    split; [reflexivity|]. split; [exact Hk | simpl; lia].
  - exists (facts (memory (loaded self))), [].
    rewrite app_nil_r. split; [reflexivity|].
    split; [apply Forall2_kept_refl | simpl; lia].
Qed.

(** X7: the action tag written to the log bounds what the call changed.
    With tag "answer" the facts file and the preferences file are as they
    were; with "remember_preference" the facts file is as it was; with any
    other tag the preferences file is as it was; with "forget_fact" the
    facts file keeps its length and the entry lists no update. *)
Theorem respond_tag_frame (prompt0 : str) (self : AxonAgent) :
  let '(_, self') := respond prompt0 self in
  exists (entry : log_entry) (tag : str),
    logs (paths self') = logs (paths self) ++ [entry]
    /\ actions entry = [tag]
    /\ (tag = $"answer" ->
        facts_file (paths self') = facts_file (paths self)
        /\ preferences_file (paths self') = preferences_file (paths self)
        /\ updates entry = [])
    /\ (tag = $"remember_preference" ->
        facts_file (paths self') = facts_file (paths self))
    /\ (tag <> $"remember_preference" ->
        preferences_file (paths self') = preferences_file (paths self))
    /\ (tag = $"forget_fact" ->
        length (facts_file (paths self')) = length (facts_file (paths self))
        /\ updates entry = []).
Proof.
  rewrite respond_unfold.
  pose proof (dispatch_effect prompt0 (loaded self)) as H.
  pose proof (dispatch_shape prompt0 (loaded self)) as Hw.
  destruct (dispatch prompt0 (loaded self)) as [[[lines acts] upds] s].
  destruct Hw as [[Hp _] _].
  cbn [logged paths facts_file preferences_file logs].
  rewrite Hp. cbn [loaded paths].
  change (facts_file (paths self)) with (facts (memory (loaded self))).
  change (preferences_file (paths self))
    with (preferences (memory (loaded self))).
  eexists (mkLog _ _ _ _ _). cbn [actions updates].
  destruct H as [(-> & Hpr & _)
               | [(-> & Hpr & _)
               | [(-> & Hf)
               | [(-> & Hpr & Hk & ->)
               | (-> & -> & -> & _)]]]];
    eexists; (split; [reflexivity|]); (split; [reflexivity|]).
  - split; [discriminate|]. split; [discriminate|].
    split; [intros _; exact Hpr | discriminate].
  - split; [discriminate|]. split; [discriminate|].
    split; [intros _; exact Hpr | discriminate].
  - split; [discriminate|]. split; [intros _; exact Hf|].
    split; [intros Ht; now destruct Ht | discriminate].
  - split; [discriminate|]. split; [discriminate|].
    split; [intros _; exact Hpr|].
    intros _. split; [|reflexivity]. symmetry. eapply Forall2_length, Hk.
  - split; [intros _; repeat split|]. split; [discriminate|].
    split; [reflexivity | discriminate].
Qed.

(** X8: [respond] works from the files and writes back to them.  Two agents
    that differ only in what they hold in memory (facts, preferences,
    axioms) give the same reply and end in the same state: nothing that was
    not saved survives the reload.  Afterwards the facts and preferences
    files hold exactly what is in memory. *)
Theorem respond_reloads_and_saves (prompt0 : str) (self other : AxonAgent) :
  paths other = paths self -> clock other = clock self ->
  ticks other = ticks self -> uuid4 other = uuid4 self ->
  drawn other = drawn self ->
  respond prompt0 other = respond prompt0 self
  /\ let '(_, self') := respond prompt0 self in
     facts_file (paths self') = facts (memory self')
     /\ preferences_file (paths self') = preferences (memory self').
Proof.
  intros Hp Hc Ht Hu Hd. split.
  - rewrite !respond_unfold.
    assert (Hl : loaded other = loaded self).
    { unfold loaded. now rewrite Hp, Hc, Ht, Hu, Hd. }
    now rewrite Hl.
  - rewrite respond_unfold.
    destruct (dispatch prompt0 (loaded self)) as [[[lines acts] upds] s].
    split; reflexivity.
Qed.

(** An instance: an agent that remembered a fact without saving it, beside
    the agent as its files describe it. *)
Lemma respond_reloads_and_saves_witness :
  let other := snd (remember_fact $"Lyon" $"une ville" $"user"
                      None None None None paris_agent) in
  let self := mkAgent (paths paris_agent) (memory paris_agent) []
                (clock paris_agent) 1 (uuid4 paris_agent) 1 in
  respond $"Qui est Lyon" other = respond $"Qui est Lyon" self
  /\ let '(_, self') := respond $"Qui est Lyon" self in
     facts_file (paths self') = facts (memory self')
     /\ preferences_file (paths self') = preferences (memory self').
Proof.
  apply (respond_reloads_and_saves $"Qui est Lyon"
           (mkAgent (paths paris_agent) (memory paris_agent) []
              (clock paris_agent) 1 (uuid4 paris_agent) 1)
           (snd (remember_fact $"Lyon" $"une ville" $"user"
                   None None None None paris_agent)));
    reflexivity.
Defined.

(* ===================================================================== *)
(** ** The parsing helpers *)
(* ===================================================================== *)












Lemma strip_strip (s : str) : Str.strip (Str.strip s) = Str.strip s.
Proof.
  unfold Str.strip.
  apply strip_by_fixed; [apply strip_by_starts_ok | apply strip_by_ends_ok].
Qed.

Lemma parse_fact_statement_none (prompt0 : str) :
  _parse_fact_statement prompt0 = None
  <-> Str.strip (Re.sub_empty prefix_pattern prompt0) = [].
Proof.
  unfold _parse_fact_statement. cbv zeta. rewrite strip_strip.
  destruct (Str.strip (Re.sub_empty prefix_pattern prompt0)) as [|c l].
  - split; reflexivity.
  - split; [|discriminate].
    destruct (Re.search est_pattern (c :: l)); discriminate.
Qed.

(** X10: the fact branch.  A prompt with a fact trigger and no search
    trigger stores nothing only when nothing is left of it once the prefix
    at its very start and the surrounding white space are removed; the reply
    then says the fact was not understood.  Otherwise [respond] appends one
    fact made of what [_parse_fact_statement] returns, with provenance
    "user", confidence 0.2 and no deletion mark, and echoes its subject and
    value.  Without a match of the "est" pattern the whole remaining text is
    both subject and value.  Preferences are never touched. *)
Theorem respond_remembers_fact (prompt0 : str) (self : AxonAgent) :
  Str.any_in [$"cherche"; $"google"; $"web"] (Str.strip (Str.lower prompt0))
  = false ->
  Str.any_in [$"apprends que"; $"tiens sache que"]
    (Str.strip (Str.lower prompt0)) = true ->
  let cleaned := Str.strip (Re.sub_empty prefix_pattern prompt0) in
  let '(reply, self') := respond prompt0 self in
  preferences_file (paths self') = preferences_file (paths self)
  /\ (cleaned = [] ->
      facts_file (paths self') = facts_file (paths self)
      /\ reply = $"Je n'ai pas réussi à comprendre le fait à mémoriser.")
  /\ (cleaned <> [] ->
      exists (data : fact_data) (new : fact),
        _parse_fact_statement prompt0 = Some data
        /\ new = mkFact (uuid4 self (drawn self))
                   (Str.strip (fd_subject data)) (Str.strip (fd_value data))
                   $"user" 0.2%float (clock self (ticks self))
                   None [] false None []
        /\ facts_file (paths self') = facts_file (paths self) ++ [new]
        /\ reply = $"Je mémorise que " ++ subject new ++ $" est " ++ value new
                     ++ $" (provenance utilisateur)."
        /\ (Re.search est_pattern cleaned = None ->
            fd_subject data = cleaned /\ fd_value data = cleaned)).
Proof.
  intros Hsearch Hfact. cbv zeta.
  rewrite respond_unfold. unfold dispatch. cbv zeta.
  rewrite Hsearch, Hfact.
  destruct (_parse_fact_statement prompt0) as [data|] eqn:Hp.
  - unfold bind, remember_fact, bind, ret, uuid4_hex, _now, get_memory,
      set_memory.
    cbn [loaded logged memory paths preferences facts preferences_file
           facts_file clock ticks uuid4 drawn fst snd subject value].
    split; [reflexivity|]. split.
    + intros Hc. apply parse_fact_statement_none in Hc. congruence.
    + intros _. exists data. eexists. split; [reflexivity|].
      split; [reflexivity|]. split; [reflexivity|]. split; [reflexivity|].
      intros Hnone. unfold _parse_fact_statement in Hp. cbv zeta in Hp.
      rewrite Hnone, strip_strip in Hp.
      destruct (nonempty _); [|discriminate].
      injection Hp as <-. split; reflexivity.
  - cbn [loaded logged memory paths preferences facts preferences_file
           facts_file ret fst snd].
    split; [reflexivity|]. split.
    + intros _. split; reflexivity.
    + intros Hc. apply parse_fact_statement_none in Hp. contradiction.
Qed.

(** An instance: a prompt with the second prefix. *)
Lemma respond_remembers_fact_witness :
  let '(reply, self') :=
    respond $"Tiens sache que Lyon est une ville." fresh_agent in
  facts_file (paths self')
  = [mkFact $"id0" $"Lyon" $"une ville" $"user" 0.2%float
       $"2024-01-01T00:00:00+00:00" None [] false None []]
  /\ reply = $"Je mémorise que Lyon est une ville (provenance utilisateur).".
Proof.
  pose proof (respond_remembers_fact $"Tiens sache que Lyon est une ville."
                fresh_agent eq_refl eq_refl) as H.
  cbv zeta in H.
  destruct (respond $"Tiens sache que Lyon est une ville." fresh_agent)
    as [reply self'].
  destruct H as (_ & _ & H).
  destruct (H ltac:(vm_compute; discriminate))
    as (data & new & Hd & -> & -> & -> & _).
  vm_compute in Hd. injection Hd as <-.
  split; reflexivity.
Defined.

(** X11: [_extract_question_subject] returns nothing exactly when the
    prompt consists of spaces, question marks, exclamation marks and full
    stops only.  The text it works on never ends with a question mark, so
    the test that removes one never succeeds; when no question pattern
    matches, the result is that text, the lowered prompt trimmed of those
    four characters. *)
Theorem extract_question_subject_spec (prompt0 : str) :
  let lowered := Str.strip_chars $" ?!." (Str.lower prompt0) in
  (_extract_question_subject prompt0 = None <-> lowered = [])
  /\ Str.endswith $"?" lowered = false
  /\ (first_question question_patterns lowered = None -> lowered <> [] ->
      _extract_question_subject prompt0 = Some lowered).
Proof.
  cbv zeta. unfold _extract_question_subject. cbv zeta.
  assert (Hend : Str.endswith $"?"
                   (Str.strip_chars $" ?!." (Str.lower prompt0)) = false).
  { pose proof (strip_by_ends_ok (fun c => Str.mem c $" ?!.")
                  (Str.lower prompt0)) as H.
    unfold Str.strip_chars, Str.endswith, ends_ok in *.
    destruct (rev (Str.strip_by _ (Str.lower prompt0))) as [|c r];
      [reflexivity|].
    cbn [starts_ok] in H. cbn [rev app Str.startswith list_ascii_of_string].
    destruct (Ascii.eqb "?" c) eqn:E; [|reflexivity].
    apply Ascii.eqb_eq in E. subst c. discriminate H. }
  rewrite Hend.
  destruct (Str.strip_chars $" ?!." (Str.lower prompt0)) as [|c l].
  - split; [split; reflexivity|]. split; [reflexivity|].
    intros _ H. congruence.
  - split; [|split; [reflexivity|]].
    + split; [|discriminate].
      destruct (first_question question_patterns (c :: l)); discriminate.
    + intros -> _. reflexivity.
Qed.

(* ===================================================================== *)
(** ** The branches of [respond] *)
(* ===================================================================== *)

Lemma lowered_has_trigger (t pre T rest : str) :
  t <> [] -> starts_ok Str.isspace t = true -> ends_ok Str.isspace t = true ->
  Str.lower T = t ->
  Str.contains t (Str.strip (Str.lower (pre ++ T ++ rest))) = true.
Proof.
  intros Ht Hs He HT. rewrite !lower_app, HT.
  now apply contains_strip_by_keep.
Qed.








(** X15: an answer cites stored facts that are not deleted, and only
    those.  Whenever the logged action is "answer", the response is one of
    the two fixed sentences, or it has one line per fact the matcher returns
    for some query on the facts file, in store order; none of these facts is
    marked as deleted. *)
Theorem respond_answer_cites_live (prompt0 : str) (self : AxonAgent) :
  let '(reply, self') := respond prompt0 self in
  exists entry : log_entry,
    logs (paths self') = logs (paths self) ++ [entry]
    /\ (actions entry = [$"answer"] ->
        response entry
        = [$"Je suis prêt à apprendre ou à répondre selon les instructions."]
        \/ response entry = [$"Je n'ai aucun fait correspondant en mémoire."]
        \/ exists (query : str) (cited : list fact),
             cited = List.filter (matches_query query) (facts_file (paths self))
             /\ cited <> []
             /\ response entry = answer_lines cited
             /\ length (response entry) = length cited
             /\ Forall (fun f => deleted f = false) cited).
Proof.
  rewrite respond_unfold.
  pose proof (dispatch_effect prompt0 (loaded self)) as H.
  pose proof (dispatch_shape prompt0 (loaded self)) as Hw.
  destruct (dispatch prompt0 (loaded self)) as [[[lines acts] upds] s].
  destruct Hw as [[Hp _] _].
  cbn [logged paths logs]. rewrite Hp. cbn [loaded paths].
  eexists. split; [reflexivity|]. cbn [actions response].
  destruct H as [(-> & _) | [(-> & _) | [(-> & _) | [(-> & _)
                | (-> & -> & _ & H)]]]]; try discriminate.
  intros _.
  destruct H as [-> | [-> | (query & Hne & ->)]];
    [now left | right; now left | right; right].
  unfold _find_matching_facts in *.
  rewrite find_loop_filter, app_nil_l in *.
  exists query. eexists. split; [reflexivity|]. split; [exact Hne|].
  split; [reflexivity|]. split; [apply length_map|].
  apply List.Forall_forall. intros f Hin. apply filter_In in Hin as [_ Hm].
  unfold matches_query in Hm. now destruct (deleted f).
Qed.

(* ===================================================================== *)
(** ** The log file *)
(* ===================================================================== *)

Lemma on_one_line_app (a b : str) :
  on_one_line (a ++ b) = on_one_line a && on_one_line b.
Proof. apply forallb_app. Qed.

Lemma escape_char_one_line (c : ascii) :
  on_one_line (Json.escape_char c) = true.
Proof.
  destruct c as [b0 b1 b2 b3 b4 b5 b6 b7].
  destruct b0, b1, b2, b3, b4, b5, b6, b7; reflexivity.
Qed.

Lemma encode_basestring_one_line (s : str) :
  on_one_line (Json.encode_basestring s) = true.
Proof.
  unfold Json.encode_basestring.
  change (Json.quote :: concat (map Json.escape_char s) ++ [Json.quote])
    with ([Json.quote] ++ concat (map Json.escape_char s) ++ [Json.quote]).
  rewrite !on_one_line_app.
  assert (H : on_one_line (concat (map Json.escape_char s)) = true).
  { induction s as [|c s IH]; [reflexivity|].
    cbn [map concat]. now rewrite on_one_line_app, escape_char_one_line, IH. }
  now rewrite H.
Qed.

Lemma join_one_line (sep : str) (parts : list str) :
  on_one_line sep = true ->
  Forall (fun p => on_one_line p = true) parts ->
  on_one_line (Str.join sep parts) = true.
Proof.
  intros Hsep Hall. induction Hall as [|p parts Hp _ IH]; [reflexivity|].
  destruct parts as [|q parts]; [exact Hp|].
  change (Str.join sep (p :: q :: parts))
    with (p ++ sep ++ Str.join sep (q :: parts)).
  now rewrite !on_one_line_app, Hp, Hsep, IH.
Qed.

Lemma strings_one_line (ft : float_text) (l : list str) :
  on_one_line (dumps_line ft (JArray (map JString l))) = true.
Proof.
  cbn [dumps_line].
  match goal with
  | |- on_one_line (?c :: ?x ++ ?y) = true =>
      change (on_one_line ([c] ++ x ++ y) = true)
  end.
  rewrite !on_one_line_app. rewrite join_one_line; [reflexivity..|].
  rewrite map_map. induction l as [|s l IH]; constructor; [|exact IH].
  apply encode_basestring_one_line.
Qed.

Lemma log_line_one_line (ft : float_text) (entry : log_entry) :
  on_one_line (dumps_line ft (json_of_log entry)) = true.
Proof.
  unfold json_of_log.
  pose proof (strings_one_line ft (response entry)) as Hr.
  pose proof (strings_one_line ft (actions entry)) as Ha.
  pose proof (strings_one_line ft (updates entry)) as Hu.
  cbn [dumps_line map fst snd] in *.
  match goal with
  | |- on_one_line (?c :: ?x ++ ?y) = true =>
      change (on_one_line ([c] ++ x ++ y) = true)
  end.
  rewrite !on_one_line_app. rewrite join_one_line; [reflexivity..|].
  repeat (apply Forall_cons; split;
          [rewrite !on_one_line_app, encode_basestring_one_line;
           first [ now rewrite encode_basestring_one_line
                 | now rewrite Hr | now rewrite Ha | now rewrite Hu ] |]).
  constructor.
Qed.

Lemma line_feeds_app (a b : str) :
  line_feeds (a ++ b) = line_feeds a + line_feeds b.
Proof. unfold line_feeds. now rewrite List.filter_app, length_app. Qed.

Lemma line_feeds_one_line (text : str) :
  on_one_line text = true -> line_feeds text = 0.
Proof.
  unfold on_one_line, line_feeds, Re.dot.
  induction text as [|c text IH]; [reflexivity|]. cbn [forallb List.filter].
  intros H. apply andb_prop in H as [Hc Ht].
  rewrite Ascii.eqb_sym. destruct (Ascii.eqb c "010"); [discriminate|].
  now apply IH.
Qed.

Lemma line_feeds_logs (ft : float_text) (entries : list log_entry) :
  line_feeds (logs_text ft entries) = length entries.
Proof.
  unfold logs_text. induction entries as [|e entries IH]; [reflexivity|].
  cbn [map concat length]. rewrite line_feeds_app, IH. unfold log_line.
  rewrite line_feeds_app, line_feeds_one_line by apply log_line_one_line.
  reflexivity.
Qed.

(** X16: the log is one line per exchange.  The text [update_logs] appends
    for an entry is a single line closed by a line feed, whatever the prompt
    and the response hold: line feeds inside them are written escaped.  So
    [respond] adds exactly one line to the log file, and the file has as
    many line feeds as there were exchanges. *)
Theorem respond_logs_one_line (ft : float_text) (prompt0 : str)
    (self : AxonAgent) :
  let '(_, self') := respond prompt0 self in
  exists text : str,
    logs_text ft (logs (paths self'))
    = logs_text ft (logs (paths self)) ++ text ++ newline
    /\ on_one_line text = true
    /\ line_feeds (logs_text ft (logs (paths self')))
       = S (line_feeds (logs_text ft (logs (paths self)))).
Proof.
  rewrite respond_unfold.
  pose proof (dispatch_shape prompt0 (loaded self)) as Hw.
  destruct (dispatch prompt0 (loaded self)) as [[[lines acts] upds] s].
  destruct Hw as [[Hp _] _].
  cbn [logged paths logs]. rewrite Hp. cbn [loaded paths].
  eexists. split; [|split].
  - unfold logs_text. rewrite map_app, concat_app. cbn [map concat].
    rewrite app_nil_r. unfold log_line. reflexivity.
  - apply log_line_one_line.
  - rewrite !line_feeds_logs, length_app. cbn [length]. lia.
Qed.

(* ===================================================================== *)
(** ** The facts file across calls *)
(* ===================================================================== *)

Lemma kept_storable (ft : float_text) (f f' : fact) :
  kept f f' -> storable ft f -> storable ft f'.
Proof. intros [-> | [_ [now ->]]] H; exact H. Qed.

Lemma Forall2_kept_storable (ft : float_text) (l l' : list fact) :
  Forall2 kept l l' -> Forall (storable ft) l -> Forall (storable ft) l'.
Proof.
  induction 1 as [|f f' l l' Hk _ IH]; intros Hall; [constructor|].
  apply Forall_cons in Hall as [Hf Hl]. constructor.
  - now apply (kept_storable ft f).
  - now apply IH.
Qed.

(** The facts of memory stay writable across the if/elif chain. *)
Lemma dispatch_storable (ft : float_text) (prompt0 : str) (self : AxonAgent) :
  printable_float ft 0.2%float -> printable_float ft 0.5%float ->
  Forall (storable ft) (facts (memory self)) ->
  Forall (storable ft) (facts (memory (snd (dispatch prompt0 self)))).
Proof.
  intros H2 H5 Hall.
  pose proof (dispatch_effect prompt0 self) as H.
  destruct (dispatch prompt0 self) as [[[lines acts] upds] s]. cbn [snd].
  destruct H as [(_ & _ & new & -> & _ & Hc & Hm)
               | [(_ & _ & [(new & -> & _ & Hc & Hm) | (-> & _)])
               | [(_ & ->)
               | [(_ & _ & Hk & _)
               | (_ & -> & _)]]]]; try assumption.
  - apply Forall_app. split; [exact Hall|]. constructor; [|constructor].
    split; [now rewrite Hc|]. rewrite Hm. constructor.
    + apply (bool_decide_unpack (NoDup _)). vm_compute. exact I.
    + repeat constructor.
  - apply Forall_app. split; [exact Hall|]. constructor; [|constructor].
    split; [now rewrite Hc|]. rewrite Hm. constructor; constructor.
  - now apply (Forall2_kept_storable ft (facts (memory self))).
Qed.



(** X18: [respond] keeps the facts file readable.  If the facts it loads
    can be written and read back, and 0.2 and 0.5 print as floats do, then
    so can the facts it saves, whatever the prompt: the facts text written
    at the end of the call is read back, by the next call, as exactly the
    facts this call left in memory. *)
Theorem respond_keeps_store_readable (ft : float_text) (prompt0 : str)
    (self : AxonAgent) :
  printable_float ft 0.2%float -> printable_float ft 0.5%float ->
  Forall (storable ft) (facts_file (paths self)) ->
  let '(_, self') := respond prompt0 self in
  Forall (storable ft) (facts_file (paths self'))
  /\ load_facts ft (facts_text ft (memory self'))
     = Some (facts_file (paths self')).
Proof.
  intros H2 H5 Hall. rewrite respond_unfold.
  pose proof (dispatch_storable ft prompt0 (loaded self) H2 H5 Hall) as H.
  destruct (dispatch prompt0 (loaded self)) as [[[lines acts] upds] s].
  cbn [snd] in H. cbn [logged paths facts_file memory].
  split; [exact H|].
  unfold load_facts, facts_text.
  rewrite loads_dumps by now apply printable_facts.
  unfold json_of_facts. rewrite dict_get_here. apply facts_of_jsons_map.
Qed.

(** An instance: a search on the store with the Paris fact. *)
Lemma respond_keeps_store_readable_witness :
  let '(_, self') := respond $"Cherche Lyon" paris_agent in
  Forall (storable default_floats) (facts_file (paths self'))
  /\ load_facts default_floats (facts_text default_floats (memory self'))
     = Some (facts_file (paths self')).
Proof.
  apply (respond_keeps_store_readable default_floats $"Cherche Lyon"
           paris_agent); repeat constructor.
Defined.

(* ===================================================================== *)
(** ** The storage at start-up *)
(* ===================================================================== *)

(** X19: [ensure_storage] never overwrites.  A file that exists keeps its
    text; a file that is missing is created, and what is created is what the
    loaders expect: the new facts file is read by [load_memory] as a store
    with no fact, the new preferences file as the empty dictionary, the new
    log and axioms files are empty.  Run again, it changes nothing. *)
Theorem ensure_storage_spec (ft : float_text) (disk : Disk) :
  let disk' := ensure_storage ft disk in
  (forall text, facts_path disk = Some text -> facts_path disk' = Some text)
  /\ (forall text, preferences_path disk = Some text ->
                   preferences_path disk' = Some text)
  /\ (forall text, logs_path disk = Some text -> logs_path disk' = Some text)
  /\ (forall text, config_path disk = Some text -> config_path disk' = Some text)
  /\ (facts_path disk = None ->
      exists text, facts_path disk' = Some text
                   /\ load_facts ft text = Some [])
  /\ (preferences_path disk = None ->
      exists text, preferences_path disk' = Some text
                   /\ Json.loads ft text = Some (JObject []))
  /\ (logs_path disk = None -> logs_path disk' = Some [])
  /\ (config_path disk = None -> config_path disk' = Some [])
  /\ ensure_storage ft disk' = disk'.
Proof.
  destruct disk as [f p l c]. cbv zeta. unfold ensure_storage.
  cbn [facts_path preferences_path logs_path config_path].
  repeat split.
  - intros text ->. reflexivity.
  - intros text ->. reflexivity.
  - intros text ->. reflexivity.
  - intros text ->. reflexivity.
  - intros ->. eexists. split; reflexivity.
  - intros ->. eexists. split; reflexivity.
  - intros ->. reflexivity.
  - intros ->. reflexivity.
  - destruct f, p, l, c; reflexivity.
Qed.

(* ===================================================================== *)
(** ** Learning, then asking *)
(* ===================================================================== *)

Lemma contains_strip_false (k s : str) :
  Str.contains k s = false -> Str.contains k (Str.strip s) = false.
Proof.
  intros H. destruct (Str.contains k (Str.strip s)) eqn:E; [|reflexivity].
  apply contains_strip_by in E. congruence.
Qed.

(** X20: what was learned is recalled.  After a prompt of the fact branch
    has been understood, a later question whose subject is contained in the
    subject just learned, letter case ignored, is answered with the line of
    the new fact, placed last since the fact is the newest of the store: the
    fact went through the facts file and back.  The question stores
    nothing. *)
Theorem learn_then_recall (p1 p2 : str) (data : fact_data) (q : str)
    (self : AxonAgent) :
  Str.any_in [$"cherche"; $"google"; $"web"] (Str.strip (Str.lower p1))
  = false ->
  Str.any_in [$"apprends que"; $"tiens sache que"] (Str.strip (Str.lower p1))
  = true ->
  _parse_fact_statement p1 = Some data ->
  Str.any_in forget_blockers (Str.lower p2) = false ->
  Str.contains $"oublie" (Str.lower p2) = false ->
  _extract_question_subject p2 = Some q -> q <> [] ->
  Str.contains (Str.lower q) (Str.lower (Str.strip (fd_subject data))) = true ->
  let '(_, s1) := respond p1 self in
  let '(reply, s2) := respond p2 s1 in
  let line :=
    $"Selon user: " ++ Str.strip (fd_subject data) ++ $" = "
      ++ Str.strip (fd_value data) ++ $" [" ++ clock self (ticks self)
      ++ $"]." in
  (exists before : list str, reply = Str.join newline (before ++ [line]))
  /\ facts_file (paths s2) = facts_file (paths s1)
  /\ length (facts_file (paths s1)) = S (length (facts_file (paths self))).
Proof.
  intros Hs1 Hf1 Hdata Hnone Hobl Hq Hqne Hin.
  unfold forget_blockers, search_fact_triggers in Hnone. cbn [app] in Hnone.
  repeat (apply any_in_false_cons in Hnone as [? Hnone]).
  assert (Hs2 :
    Str.any_in [$"cherche"; $"google"; $"web"] (Str.strip (Str.lower p2)) = false).
  { apply any_in_strip_false. repeat (apply any_in_false_cons; split; trivial). }
  assert (Hf2 :
    Str.any_in [$"apprends que"; $"tiens sache que"] (Str.strip (Str.lower p2))
    = false).
  { apply any_in_strip_false. repeat (apply any_in_false_cons; split; trivial). }
  assert (Hp2 :
    Str.any_in [$"mon avis"; $"j'aime"; $"je n'aime pas"] (Str.strip (Str.lower p2))
    = false).
  { apply any_in_strip_false. repeat (apply any_in_false_cons; split; trivial). }
  apply contains_strip_false in Hobl.
  rewrite (respond_unfold p1). unfold dispatch at 1. cbv zeta.
  rewrite Hs1, Hf1, Hdata.
  unfold bind, remember_fact, bind, ret, uuid4_hex, _now, get_memory,
    set_memory.
  cbn [loaded logged memory paths preferences facts preferences_file
         facts_file clock ticks uuid4 drawn fst snd subject value].
  rewrite respond_unfold. unfold dispatch. cbv zeta.
  rewrite Hs2, Hf2, Hp2, Hobl, Hq.
  destruct q as [|c q]; [contradiction|].
  unfold bind, get_memory.
  cbn [loaded logged memory paths facts_file facts fst snd].
  unfold _find_matching_facts.
  cbn [loaded logged memory paths facts_file facts fst snd].
  rewrite find_loop_filter, app_nil_l, List.filter_app.
  cbn [List.filter].
  match goal with
  | |- context [matches_query (c :: q) ?new] =>
      assert (Hm : matches_query (c :: q) new = true)
  end.
  { unfold matches_query. cbn [deleted subject negb andb]. now rewrite Hin. }
  rewrite Hm.
  match goal with
  | |- context [List.filter ?g ?l ++ [?new]] =>
      destruct (List.filter g l ++ [new]) as [|f ms] eqn:E;
        [destruct (List.filter g l); discriminate E|];
        rewrite <- E; clear E
  end.
  cbn [ret logged paths facts_file memory facts fst snd].
  split; [|split].
  - eexists. unfold answer_lines. rewrite map_app. cbn [map provenance subject
      value added_at]. reflexivity.
  - reflexivity.
  - rewrite length_app. cbn [length]. lia.
Qed.

(** An instance: the Paris fact, learned and asked for. *)
Lemma learn_then_recall_witness :
  let '(_, s1) :=
    respond $"Apprends que Paris est la capitale de la France" fresh_agent in
  let '(reply, s2) := respond $"Qui est Paris ?" s1 in
  let line :=
    $"Selon user: " ++ $"Paris" ++ $" = " ++ $"la capitale de la France"
      ++ $" [" ++ clock fresh_agent 0 ++ $"]." in
  (exists before : list str, reply = Str.join newline (before ++ [line]))
  /\ facts_file (paths s2) = facts_file (paths s1)
  /\ length (facts_file (paths s1)) = S (length (facts_file (paths fresh_agent))).
Proof.
  apply (learn_then_recall
           $"Apprends que Paris est la capitale de la France"
           $"Qui est Paris ?"
           (mkFactData $"Paris" $"la capitale de la France") $"paris"
           fresh_agent);
    first [reflexivity | discriminate].
Defined.

(* ===================================================================== *)
(** ** The search branch: the query *)
(* ===================================================================== *)

(** No alternative of the list begins inside [pre] when none occurs in [pre]
    followed by all but the last character of [T], and the trigger met does
    not occur inside another one after its first character. *)
Lemma alt_no_earlier (ts : list str) (ti pre T r a b : str) :
  Str.lower T = ti ->
  (forall t, In t ts ->
     Str.contains (Str.lower t) (Str.lower (pre ++ removelast T)) = false) ->
  (forall t, In t ts -> Str.contains ti (tl (Str.lower t)) = false) ->
  pre = a ++ b -> b <> [] ->
  forall t, In t ts ->
    Str.startswith (Str.lower t) (Str.lower (b ++ T ++ r)) = false.
Proof.
  intros HT Hno Hsuf -> Hb t Ht.
  destruct (Str.startswith _ _) eqn:E; [exfalso | reflexivity].
  assert (HTne : T <> []).
  { intros ->. cbn in HT. subst ti. specialize (Hsuf t Ht).
    now rewrite contains_nil in Hsuf. }
  destruct (exists_last HTne) as (T0 & x & ->).
  rewrite removelast_last in Hno.
  destruct (le_lt_dec (length (Str.lower t)) (length (b ++ T0))) as [Hle|Hgt].
  - replace (b ++ (T0 ++ [x]) ++ r) with ((b ++ T0) ++ (x :: r)) in E
      by (now rewrite <- !app_assoc).
    rewrite lower_app in E. apply startswith_shorter in E;
      [|rewrite (lower_length (b ++ T0)); exact Hle].
    apply startswith_iff in E as [z Hz].
    assert (Hyes : Str.contains (Str.lower t) (Str.lower ((a ++ b) ++ T0))
                   = true).
    { apply contains_iff. exists (Str.lower a), z.
      rewrite <- Hz, <- app_assoc. apply lower_app. }
    rewrite (Hno t Ht) in Hyes. discriminate.
  - apply startswith_iff in E as [z Hz].
    rewrite (lower_app b), (lower_app (T0 ++ [x])), HT in Hz.
    rewrite app_assoc in Hz.
    assert (Hlen : length (Str.lower b ++ ti) <= length (Str.lower t)).
    { rewrite length_app, lower_length, <- HT, lower_length.
      rewrite !length_app in *. cbn [length] in *. lia. }
    apply app_eq_app in Hz as [l [[H1 H2] | [H1 H2]]].
    + assert (l = []) as ->.
      { apply (f_equal (@length ascii)) in H1. rewrite !length_app in H1.
        rewrite length_app in Hlen.
        destruct l; [reflexivity | cbn [length] in H1; lia]. }
      rewrite app_nil_r in H1. specialize (Hsuf t Ht). rewrite <- H1 in Hsuf.
      destruct b as [|c0 b']; [contradiction|]. cbn [Str.lower map app tl] in Hsuf.
      assert (Str.contains ti (map Str.lower_char b' ++ ti) = true) as Hyes.
      { apply contains_iff. exists (map Str.lower_char b'), [].
        now rewrite app_nil_r. }
      rewrite Hsuf in Hyes. discriminate.
    + specialize (Hsuf t Ht). rewrite H1 in Hsuf.
      destruct b as [|c0 b']; [contradiction|].
      cbn [Str.lower map app tl] in Hsuf.
      assert (Str.contains ti ((map Str.lower_char b' ++ ti) ++ l) = true)
        as Hyes.
      { apply contains_iff. exists (map Str.lower_char b'), l.
        now rewrite <- app_assoc. }
      rewrite Hsuf in Hyes. discriminate.
Qed.

Lemma match_here_alt (ic : bool) (alts : list str) (ats : list Re.atom)
    (caps : list str) (s : str) :
  Re.match_here ic (Re.Alt alts :: ats) caps s
  = Re.first_alt ic (fun s' => Re.match_here ic ats caps s') alts s.
Proof. reflexivity. Qed.

(** [re.search] of the query pattern: when the first occurrence [T] of a
    search trigger is followed by the white space [ws] and the text [X],
    which begins with a visible character and runs to the end of its line,
    group 1 is [X]. *)
Lemma search_query_item (pre T ws X rest : str) :
  In (Str.lower T) [$"cherche"; $"google"; $"web"] ->
  Str.any_in [$"cherche"; $"google"; $"web"] (Str.lower (pre ++ removelast T))
  = false ->
  ws <> [] -> forallb Str.isspace ws = true ->
  X <> [] -> starts_ok Str.isspace X = true -> forallb Re.dot X = true ->
  starts_ok Re.dot rest = true ->
  Re.search query_pattern (pre ++ T ++ ws ++ X ++ rest)
  = Some (Re.mkMatch [X] rest).
Proof.
  intros HT Hno Hws Hsp HX HX0 Hdot Hrest.
  repeat (apply any_in_false_cons in Hno as [? Hno]).
  unfold Re.search, query_pattern. cbn [Re.anchored Re.ignorecase Re.atoms].
  assert (Htail :
    Re.match_here true [Re.Spaces; Re.Dots Re.StarGreedy] []
      (ws ++ X ++ rest) = Some (Re.mkMatch [X] rest)).
  { cbn [Re.match_here].
    apply greedy_all; [exact Hws | exact Hsp | now apply starts_ok_app |].
    rewrite (greedy_all Re.dot _ X rest (Re.mkMatch [X] rest));
      [reflexivity | exact HX | exact Hdot | exact Hrest | reflexivity]. }
  rewrite search_from_skip.
  - apply search_from_hit. rewrite match_here_alt. cbn [Re.first_alt].
    destruct HT as [HT | [HT | [HT | []]]]; symmetry in HT.
    + rewrite (lit_ic_app $"cherche" T _ HT). now rewrite Htail.
    + rewrite (lit_ic_none $"cherche")
        by (rewrite lower_app, HT; reflexivity).
      rewrite (lit_ic_app $"google" T _ HT). now rewrite Htail.
    + rewrite (lit_ic_none $"cherche")
        by (rewrite lower_app, HT; reflexivity).
      rewrite (lit_ic_none $"google")
        by (rewrite lower_app, HT; reflexivity).
      rewrite (lit_ic_app $"web" T _ HT). now rewrite Htail.
  - intros a b Hab Hb. rewrite match_here_alt. cbn [Re.first_alt].
    assert (Hstart : forall t, In t [$"cherche"; $"google"; $"web"] ->
              Str.startswith (Str.lower t)
                (Str.lower (b ++ T ++ ws ++ X ++ rest)) = false).
    { apply (alt_no_earlier [$"cherche"; $"google"; $"web"] (Str.lower T)
               pre T (ws ++ X ++ rest) a b); try assumption; try reflexivity.
      - intros t [<- | [<- | [<- | []]]]; assumption.
      - intros t Ht.
        destruct HT as [<- | [<- | [<- | []]]];
          destruct Ht as [<- | [<- | [<- | []]]]; reflexivity. }
    rewrite (lit_ic_none $"cherche") by (apply Hstart; simpl; auto).
    rewrite (lit_ic_none $"google") by (apply Hstart; simpl; auto).
    rewrite (lit_ic_none $"web") by (apply Hstart; simpl; auto).
    reflexivity.
Qed.

Lemma summary_stripped (q : str) :
  Str.strip ($"Aucune recherche en ligne réelle n'a été effectuée pour '"
               ++ q ++ $"'.")
  = $"Aucune recherche en ligne réelle n'a été effectuée pour '" ++ q ++ $"'.".
Proof.
  apply strip_by_fixed; [reflexivity|].
  rewrite app_assoc. unfold ends_ok. rewrite rev_app_distr. reflexivity.
Qed.

(** X21: the search branch, from the prompt to the stored placeholder.  When
    the first search trigger of the prompt, in any letter case, is followed
    by white space and by a text that begins with a visible character and
    runs to the end of its line, the query is that text without the white
    space at its end, wherever the trigger stands and whatever other branch
    the prompt would fit.  [respond] then appends one fact with subject
    "web_search:" and the query, the placeholder sentence as value,
    provenance "web", confidence 0.5 and the query in its metadata, and the
    reply names the query. *)
Theorem respond_search (pre T ws X rest : str) (self : AxonAgent) :
  In (Str.lower T) [$"cherche"; $"google"; $"web"] ->
  Str.any_in [$"cherche"; $"google"; $"web"] (Str.lower (pre ++ removelast T))
  = false ->
  nonempty ws = true -> blank ws = true ->
  nonempty X = true -> starts_ok Str.isspace X = true ->
  on_one_line X = true -> at_line_end rest = true ->
  let '(reply, self') := respond (pre ++ T ++ ws ++ X ++ rest) self in
  let query := Str.strip X in
  let new :=
    mkFact (uuid4 self (drawn self)) ($"web_search:" ++ query)
      ($"Aucune recherche en ligne réelle n'a été effectuée pour '"
         ++ query ++ $"'.")
      $"web" 0.5%float (clock self (ticks self)) None [] false None
      [($"url", JNull); ($"query", JString query)] in
  _extract_query (pre ++ T ++ ws ++ X ++ rest) = query
  /\ facts_file (paths self') = facts_file (paths self) ++ [new]
  /\ preferences_file (paths self') = preferences_file (paths self)
  /\ reply = $"Résultat de recherche (mock) pour '" ++ query ++ $"'.".
Proof.
  intros HT Hno Hws Hsp HX HX0 Hline Hrest.
  set (p := pre ++ T ++ ws ++ X ++ rest) in *.
  assert (Hq : _extract_query p = Str.strip X).
  { unfold _extract_query, p.
    rewrite (search_query_item pre T ws X rest); try assumption.
    - reflexivity.
    - now destruct ws.
    - now destruct X. }
  assert (Hsearch :
    Str.any_in [$"cherche"; $"google"; $"web"] (Str.strip (Str.lower p)) = true).
  { unfold Str.any_in. cbn [existsb].
    destruct HT as [HT | [HT | [HT | []]]]; symmetry in HT;
      match type of HT with
      | _ = ?t =>
          assert (Hin : Str.contains t (Str.strip (Str.lower p)) = true)
            by (unfold p; apply lowered_has_trigger;
                [discriminate | reflexivity | reflexivity | exact HT])
      end;
      rewrite Hin; now rewrite ?orb_true_r. }
  rewrite respond_unfold. unfold dispatch. cbv zeta. rewrite Hsearch, Hq.
  unfold search_web, store_results, bind, remember_fact, bind, ret,
    uuid4_hex, _now, get_memory, set_memory.
  cbn [r_subject r_summary r_provenance r_confidence r_url fst snd
         json_of_option].
  rewrite strip_prefix_stripped by (vm_compute; congruence).
  rewrite summary_stripped.
  cbn [loaded logged facts memory paths facts_file preferences
         preferences_file clock ticks uuid4 drawn].
  repeat split.
Qed.

(** An instance: a search asked for after a fact prefix. *)
Lemma respond_search_witness :
  let '(reply, self') :=
    respond ($"Apprends que je " ++ $"Cherche" ++ $"  " ++ $"la mer. "
               ++ []) fresh_agent in
  let query := Str.strip $"la mer. " in
  let new :=
    mkFact (uuid4 fresh_agent 0) ($"web_search:" ++ query)
      ($"Aucune recherche en ligne réelle n'a été effectuée pour '"
         ++ query ++ $"'.")
      $"web" 0.5%float (clock fresh_agent 0) None [] false None
      [($"url", JNull); ($"query", JString query)] in
  _extract_query ($"Apprends que je " ++ $"Cherche" ++ $"  " ++ $"la mer. "
                    ++ []) = query
  /\ facts_file (paths self') = facts_file (paths fresh_agent) ++ [new]
  /\ preferences_file (paths self') = preferences_file (paths fresh_agent)
  /\ reply = $"Résultat de recherche (mock) pour '" ++ query ++ $"'.".
Proof.
  apply (respond_search $"Apprends que je " $"Cherche" $"  " $"la mer. " []
           fresh_agent);
    first [reflexivity | (left; reflexivity)].
Defined.

(* ===================================================================== *)
(** ** Forgetting, then asking *)
(* ===================================================================== *)






(* ===================================================================== *)
(** ** The fact branch: subject and value *)
(* ===================================================================== *)












Lemma spaces_spec (ws : str) :
  spaces ws = true -> ws <> [] /\ forallb Str.isspace ws = true.
Proof.
  unfold spaces, blank. intros H. apply andb_true_iff in H as [H1 H2].
  split; [now destruct ws | exact H2].
Qed.




(* ===================================================================== *)
(** ** The answer branch: the question *)
(* ===================================================================== *)

Lemma lit_cs_app (t s : str) : Re.lit false t (t ++ s) = Some s.
Proof.
  induction t as [|a t IH]; [reflexivity|]. cbn [app Re.lit].
  unfold Re.char_eq. now rewrite Ascii.eqb_refl.
Qed.

Lemma lit_cs_none (t s : str) :
  Str.startswith t s = false -> Re.lit false t s = None.
Proof.
  revert s. induction t as [|a t IH]; intros s H; [discriminate|].
  destruct s as [|c s]; [reflexivity|]. cbn [Re.lit Str.startswith] in *.
  unfold Re.char_eq. destruct (Ascii.eqb a c); [|reflexivity].
  now apply IH.
Qed.

Lemma search_from_lit_none_cs (t : str) (ats : list Re.atom) (s : str) :
  Str.contains t s = false -> Re.search_from false (Re.Lit t :: ats) s = None.
Proof.
  induction s as [|c s IH]; cbn [Str.contains Re.search_from Re.match_here];
    intros H; apply orb_false_iff in H as [Hs Hc].
  - now rewrite (lit_cs_none t [] Hs).
  - rewrite (lit_cs_none t (c :: s) Hs). now apply IH.
Qed.

Lemma no_earlier_start_cs (t pre r a b : str) :
  Str.contains t (pre ++ removelast t) = false ->
  pre = a ++ b -> b <> [] ->
  Str.startswith t (b ++ t ++ r) = false.
Proof.
  intros Hno -> Hb.
  destruct (Str.startswith _ _) eqn:E; [exfalso | reflexivity].
  destruct t as [|c0 t0] eqn:Et.
  { cbn in Hno. destruct ((a ++ b) ++ []); discriminate. }
  rewrite <- Et in *.
  assert (Hne : t <> []) by (rewrite Et; discriminate).
  destruct (exists_last Hne) as (t1 & x & Ht).
  rewrite Ht in E at 2. rewrite Ht, removelast_last in Hno.
  replace (b ++ (t1 ++ [x]) ++ r) with ((b ++ t1) ++ (x :: r)) in E
    by (now rewrite <- !app_assoc).
  apply startswith_shorter in E.
  - apply startswith_iff in E as [z Hz].
    assert (Str.contains t ((a ++ b) ++ t1) = true) as Hyes.
    { apply contains_iff. exists a, z. now rewrite <- Hz, <- app_assoc. }
    rewrite Ht in Hyes at 1. congruence.
  - rewrite Ht at 1. rewrite !length_app. cbn [length].
    destruct b; [contradiction|]. cbn [length]. lia.
Qed.

(** [re.search] of a question pattern, without flags. *)
Lemma search_word_item (t pre ws X rest : str) :
  Str.contains t (pre ++ removelast t) = false ->
  ws <> [] -> forallb Str.isspace ws = true ->
  X <> [] -> starts_ok Str.isspace X = true -> forallb Re.dot X = true ->
  starts_ok Re.dot rest = true ->
  Re.search (Re.mkPattern false false
               [Re.Lit t; Re.Spaces; Re.Dots Re.PlusGreedy])
    (pre ++ t ++ ws ++ X ++ rest)
  = Some (Re.mkMatch [X] rest).
Proof.
  intros Hno Hws Hsp HX HX0 Hdot Hrest.
  unfold Re.search. cbn [Re.anchored Re.ignorecase Re.atoms].
  rewrite search_from_skip.
  - apply search_from_hit. cbn [Re.match_here].
    rewrite lit_cs_app.
    apply greedy_all; [exact Hws | exact Hsp | now apply starts_ok_app |].
    cbn [Re.match_here].
    apply greedy_all; [exact HX | exact Hdot | exact Hrest |].
    reflexivity.
  - intros a b Hab Hb. cbn [Re.match_here].
    rewrite lit_cs_none; [reflexivity|].
    now apply (no_earlier_start_cs t pre _ a b).
Qed.

Lemma first_question_word (t pre ws X rest : str) :
  In t question_words ->
  Str.contains t (pre ++ removelast t) = false ->
  Str.any_in (tried_before t question_words) (pre ++ t ++ ws ++ X ++ rest)
  = false ->
  ws <> [] -> forallb Str.isspace ws = true ->
  X <> [] -> starts_ok Str.isspace X = true -> forallb Re.dot X = true ->
  starts_ok Re.dot rest = true ->
  first_question question_patterns (pre ++ t ++ ws ++ X ++ rest)
  = Some (Str.strip X).
Proof.
  intros Ht Hno Hbefore Hws Hsp HX HX0 Hdot Hrest.
  unfold question_patterns.
  destruct Ht as [<- | [<- | [<- | []]]]; cbn [first_question].
  - now rewrite search_word_item.
  - cbn in Hbefore. apply orb_false_iff in Hbefore as [H1 _].
    unfold Re.search at 1. cbn [Re.anchored Re.ignorecase Re.atoms].
    rewrite search_from_lit_none_cs by exact H1.
    now rewrite search_word_item.
  - cbn in Hbefore. apply orb_false_iff in Hbefore as [H1 H2].
    apply orb_false_iff in H2 as [H2 _].
    unfold Re.search at 1. cbn [Re.anchored Re.ignorecase Re.atoms].
    rewrite search_from_lit_none_cs by exact H1.
    unfold Re.search at 1. cbn [Re.anchored Re.ignorecase Re.atoms].
    rewrite search_from_lit_none_cs by exact H2.
    now rewrite search_word_item.
Qed.

(** X24: the answer branch, from the question to the reply.  Take a prompt
    without any trigger whose lowered text, trimmed of spaces, question
    marks, exclamation marks and full stops, holds one of the question
    openings "qui est", "qu'est-ce que", "quel est", none that is tried
    before it, then white space and a text that begins with a visible
    character and runs to the end of its line.  The subject asked for is
    that text, and the reply has one line for every stored fact that is not
    deleted and matches it, in store order, or says that no fact matches.
    Nothing is stored. *)
Theorem respond_question (prompt0 pre t ws X rest : str) (self : AxonAgent) :
  Str.any_in all_triggers (Str.lower prompt0) = false ->
  Str.strip_chars $" ?!." (Str.lower prompt0) = pre ++ t ++ ws ++ X ++ rest ->
  In t question_words ->
  Str.contains t (pre ++ removelast t) = false ->
  Str.any_in (tried_before t question_words) (pre ++ t ++ ws ++ X ++ rest)
  = false ->
  spaces ws = true ->
  nonempty X = true -> starts_ok Str.isspace X = true ->
  on_one_line X = true -> at_line_end rest = true ->
  let '(reply, self') := respond prompt0 self in
  let cited :=
    List.filter (matches_query (Str.strip X)) (facts_file (paths self)) in
  _extract_question_subject prompt0 = Some (Str.strip X)
  /\ reply = match cited with
             | [] => $"Je n'ai aucun fait correspondant en mémoire."
             | _ :: _ => Str.join newline (answer_lines cited)
             end
  /\ facts_file (paths self') = facts_file (paths self)
  /\ preferences_file (paths self') = preferences_file (paths self).
Proof.
  intros Hnone Hlow Ht Hno Hbefore Hws HX HX0 Hline Hrest.
  apply spaces_spec in Hws as [Hws Hsp].
  assert (HXne : X <> []) by (now destruct X).
  assert (Hq : _extract_question_subject prompt0 = Some (Str.strip X)).
  { unfold _extract_question_subject. cbv zeta. rewrite Hlow.
    now rewrite (first_question_word t pre ws X rest). }
  assert (Hqne : Str.strip X <> []).
  { apply strip_not_blank. destruct X as [|c X']; [contradiction|].
    cbn [starts_ok] in HX0. apply negb_true_iff in HX0.
    unfold blank. cbn [forallb]. now rewrite HX0. }
  unfold all_triggers, forget_blockers, search_fact_triggers in Hnone.
  cbn [app] in Hnone.
  repeat (apply any_in_false_cons in Hnone as [? Hnone]).
  assert (Hsearch :
    Str.any_in [$"cherche"; $"google"; $"web"] (Str.strip (Str.lower prompt0))
    = false).
  { apply any_in_strip_false. repeat (apply any_in_false_cons; split; trivial). }
  assert (Hfact :
    Str.any_in [$"apprends que"; $"tiens sache que"]
      (Str.strip (Str.lower prompt0)) = false).
  { apply any_in_strip_false. repeat (apply any_in_false_cons; split; trivial). }
  assert (Hpref :
    Str.any_in [$"mon avis"; $"j'aime"; $"je n'aime pas"]
      (Str.strip (Str.lower prompt0)) = false).
  { apply any_in_strip_false. repeat (apply any_in_false_cons; split; trivial). }
  assert (Hobl : Str.contains $"oublie" (Str.strip (Str.lower prompt0)) = false).
  { now apply contains_strip_false. }
  rewrite respond_unfold. unfold dispatch. cbv zeta.
  rewrite Hsearch, Hfact, Hpref, Hobl, Hq.
  destruct (Str.strip X) as [|c q]; [contradiction|].
  unfold bind, get_memory. cbn [loaded memory fst snd].
  unfold _find_matching_facts. rewrite find_loop_filter, app_nil_l.
  cbn [facts].
  destruct (List.filter (matches_query (c :: q)) (facts_file (paths self)))
    as [|f ms];
    cbn [ret logged paths facts_file preferences_file memory facts preferences
           fst snd Str.join];
    repeat split.
Qed.

(** An instance: a question with a polite opening, on the Paris store. *)
Lemma respond_question_witness :
  let '(reply, self') := respond $"Dis-moi, QUEL EST  Paris ?" paris_agent in
  let cited :=
    List.filter (matches_query (Str.strip $"paris"))
      (facts_file (paths paris_agent)) in
  _extract_question_subject $"Dis-moi, QUEL EST  Paris ?"
  = Some (Str.strip $"paris")
  /\ reply = match cited with
             | [] => $"Je n'ai aucun fait correspondant en mémoire."
             | _ :: _ => Str.join newline (answer_lines cited)
             end
  /\ facts_file (paths self') = facts_file (paths paris_agent)
  /\ preferences_file (paths self') = preferences_file (paths paris_agent).
Proof.
  apply (respond_question $"Dis-moi, QUEL EST  Paris ?" $"dis-moi, "
           $"quel est" $"  " $"paris" [] paris_agent);
    first [reflexivity | (right; right; left; reflexivity)].
Defined.

(* ===================================================================== *)
(** ** The preference branch: nothing to store *)
(* ===================================================================== *)





